(** * normalize-conversation-for-slack: the Slack normaliser of the
      conversation connector, embedded in Rocq.

    The JavaScript action [main] takes the output of a dialog engine turn
    together with the raw inbound Slack data and builds the body of a Slack
    post.  The development below embeds the file function by function over a
    small model of JavaScript data values and settles the properties of the
    specification against it.

    Data model.  Parameters are JSON data: [undefined], [null], booleans,
    numbers, strings, arrays and plain objects.  Objects are finite maps
    from property names to values (their own data properties).  Numbers are
    integers printed in decimal; strings are sequences of characters.  The
    members of the built-in prototypes are not data, so they are not part of the maps: none of the property names
    the action reads is the name of such a member, and the only methods the
    action calls ([join], [map], [forEach], [push]) are modelled at their
    call sites.  An own property named [toString] shadows the built-in
    conversion, which makes string conversion of that object fail; this is
    modelled.  An assignment to the reserved name [__proto__] runs a setter
    of [Object.prototype] instead of creating a property: the copy of the
    override, which assigns key by key, is modelled so ([set_property]).  A
    value holds the own properties of an object; the prototype link, which
    that setter may change, is not part of it, and reads through a changed
    link are outside the model (they could only arise for a single generic
    element that has an own key [__proto__], which [Object.assign]
    copies). *)

From stdpp Require Import base option list strings gmap fin_maps pretty.
From Stdlib Require Import ZArith.

Set Warnings "-register-all".

Local Open Scope string_scope.
Local Open Scope Z_scope.

(** ** Values *)

Inductive value : Type :=
| VUndef
| VNull
| VBool (b : bool)
| VNum (n : Z)
| VStr (s : string)
| VArr (l : list value)
| VObj (o : gmap string value).

(** What a failing computation throws.  An assertion carries its message
    when the call site gives one. *)
Inductive error : Type :=
| AssertionError (msg : option string)
| TypeError
| SyntaxError.

(** ** Computations that may throw *)

Inductive result (A : Type) : Type :=
| Ok (a : A)
| Err (e : error).
Arguments Ok {A} a.
Arguments Err {A} e.

#[global] Instance result_ret : MRet result := λ A a, Ok a.
#[global] Instance result_bind : MBind result := λ A B f m,
  match m with
  | Ok a => f a
  | Err e => Err e
  end.

(** ** Primitive operations of the language *)

(** ToBoolean. *)
Definition truthy (v : value) : bool :=
  match v with
  | VUndef | VNull => false
  | VBool b => b
  | VNum n => negb (n =? 0)
  | VStr s => negb (String.eqb s "")
  | VArr _ | VObj _ => true
  end.

Definition typeof (v : value) : string :=
  match v with
  | VUndef => "undefined"
  | VNull => "object"
  | VBool _ => "boolean"
  | VNum _ => "number"
  | VStr _ => "string"
  | VArr _ | VObj _ => "object"
  end.

(** [v instanceof Object]: arrays and objects. *)
Definition instanceof_Object (v : value) : bool :=
  match v with
  | VArr _ | VObj _ => true
  | _ => false
  end.

(** The characters of a string, each as a one-character string. *)
Fixpoint chars (s : string) : list value :=
  match s with
  | EmptyString => []
  | String c r => VStr (String c EmptyString) :: chars r
  end.

(** The index properties of an array-like list of values. *)
Definition indexed (l : list value) : gmap string value :=
  list_to_map (imap (λ i x, (pretty i, x)) l).

(** The own enumerable properties of a value, as [Object.keys] and
    [Object.assign] see them. *)
Definition own_props (v : value) : gmap string value :=
  match v with
  | VObj o => o
  | VArr l => indexed l
  | VStr s => indexed (chars s)
  | _ => ∅
  end.

(** Property read [v.k] (or [v[k]]).  Reading a property of [undefined] or
    [null] throws; a missing property reads as [undefined]. *)
Definition get (v : value) (k : string) : result value :=
  match v with
  | VUndef | VNull => Err TypeError
  | VObj o => Ok (default VUndef (o !! k))
  | VArr l =>
      if String.eqb k "length" then Ok (VNum (Z.of_nat (length l)))
      else Ok (default VUndef (indexed l !! k))
  | VStr s =>
      if String.eqb k "length" then Ok (VNum (Z.of_nat (String.length s)))
      else Ok (default VUndef (indexed (chars s) !! k))
  | VBool _ | VNum _ => Ok VUndef
  end.

(** [a && b] and [a || b], the right operand being evaluated on demand. *)
Definition js_and (a : value) (b : result value) : result value :=
  if truthy a then b else Ok a.

Definition js_or (a : value) (b : result value) : result value :=
  if truthy a then Ok a else b.

(** [Array.prototype.join] over a conversion [f] of the elements:
    [undefined] and [null] elements print as the empty string. *)
Definition join_with (f : value → result string) (sep : string)
  : list value → result string :=
  fix go (l : list value) : result string :=
    match l with
    | [] => Ok ""
    | x :: r =>
        s ← match x with
            | VUndef | VNull => Ok ""
            | _ => f x
            end;
        match r with
        | [] => Ok s
        | _ => t ← go r; Ok (s +:+ sep +:+ t)
        end
    end.

(** ToString. *)
Fixpoint to_string (v : value) : result string :=
  match v with
  | VUndef => Ok "undefined"
  | VNull => Ok "null"
  | VBool true => Ok "true"
  | VBool false => Ok "false"
  | VNum n => Ok (pretty n)
  | VStr s => Ok s
  | VArr l => join_with to_string "," l
  | VObj o =>
      match o !! "toString" with
      | Some _ => Err TypeError
      | None => Ok "[object Object]"
      end
  end.

(** [arr.join(sep)] as the action calls it: the receiver must be an array,
    anything else has no callable [join]. *)
Definition join (v : value) (sep : string) : result string :=
  match v with
  | VArr l => join_with to_string sep l
  | _ => Err TypeError
  end.

(** [assert(v, msg)] and [assert.equal(a, b)] on strings. *)
Definition assert (v : value) (msg : option string) : result unit :=
  if truthy v then Ok () else Err (AssertionError msg).

Definition assert_equal_str (a b : string) : result unit :=
  if String.eqb a b then Ok () else Err (AssertionError None).

(** ** Promises

    [new Promise(executor)] runs the executor at once.  The executor may
    call [resolve]; an exception it throws is caught by the constructor and
    rejects the promise.  Settling a promise that is already settled does
    nothing. *)

Inductive promise : Type :=
| Pending
| Fulfilled (v : value)
| Rejected (e : error).

Definition resolve (v : value) (p : promise) : promise :=
  match p with
  | Pending => Fulfilled v
  | _ => p
  end.

Definition reject (e : error) (p : promise) : promise :=
  match p with
  | Pending => Rejected e
  | _ => p
  end.

Definition new_Promise (executor : promise → promise * result unit) : promise :=
  let '(p, r) := executor Pending in
  match r with
  | Ok _ => p
  | Err e => reject e p
  end.

(** How a call completes: it returns a value or throws to its caller. *)
Inductive completion (A : Type) : Type :=
| Return (a : A)
| Throw (e : error).
Arguments Return {A} a.
Arguments Throw {A} e.

(** ** The action *)

Definition urlChatPost : string := "https://slack.com/api/chat.postMessage".
Definition urlChatUpdate : string := "https://slack.com/api/chat.update".

Section Action.

(** [JSON.parse] on the text of its argument: [None] when the text is not
    JSON.  The action is verified for any such reader. *)
Variable JSON_parse : string → option value.

(** [JSON.parse(v)]: the argument is converted to a string first. *)
Definition js_JSON_parse (v : value) : result value :=
  s ← to_string v;
  match JSON_parse s with
  | Some r => Ok r
  | None => Err SyntaxError
  end.

(** [params.raw_input_data.slack.k] *)
Definition slack_field (params : value) (k : string) : result value :=
  raw ← get params "raw_input_data";
  slack ← get raw "slack";
  get slack k.

(** [params.conversation.output.k] *)
Definition output_field (params : value) (k : string) : result value :=
  conversation ← get params "conversation";
  output ← get conversation "output";
  get output k.

(** [params.raw_input_data.slack.payload &&
     JSON.parse(params.raw_input_data.slack.payload)] *)
Definition parsed_payload (params : value) : result value :=
  payload ← slack_field params "payload";
  js_and payload (payload' ← slack_field params "payload"; js_JSON_parse payload').

(** [slackEvent ? slackEvent.channel
      : slackPayload && slackPayload.channel && slackPayload.channel.id] *)
Definition channel_of (slackEvent slackPayload : value) : result value :=
  if truthy slackEvent then get slackEvent "channel"
  else
    js_and slackPayload (
      channel ← get slackPayload "channel";
      js_and channel (channel' ← get slackPayload "channel"; get channel' "id")).

Definition getSlackChannel (params : value) : result value :=
  slackEvent ← slack_field params "event";
  slackPayload ← parsed_payload params;
  channel_of slackEvent slackPayload.

Definition getSlackPostUrl (params : value) : result value :=
  payload ← slack_field params "payload";
  if truthy payload then
    payload' ← slack_field params "payload";
    parsed ← js_JSON_parse payload';
    response_url ← get parsed "response_url";
    js_or response_url (Ok (VStr urlChatUpdate))
  else Ok (VStr urlChatPost).

Definition getNormalizedOptionsValue (value0 : value) : result value :=
  normalizedValue ←
    (if instanceof_Object value0 then
       input ← get value0 "input";
       c ← js_and input (input' ← get value0 "input"; get input' "text");
       assert c None;;
       (* [assert(typeof value.input.text, 'string')]: the first argument
          is the asserted value, the second the message *)
       input1 ← get value0 "input";
       text1 ← get input1 "text";
       assert (VStr (typeof text1)) (Some "string");;
       input2 ← get value0 "input";
       get input2 "text"
     else Ok value0);
  assert_equal_str (typeof normalizedValue) "string";;
  Ok normalizedValue.

Definition generateSlackImageData (element : value) : result value :=
  title ← get element "title";
  description ← get element "description";
  source ← get element "source";
  Ok (VObj {[ "attachments" :=
    VArr [ VObj (<["title" := title]> (<["pretext" := description]>
                   {[ "image_url" := source ]})) ] ]}).

(** The template literal [`<${element.source}|${element.title}>`]. *)
Definition link_text (element : value) : result string :=
  source ← get element "source";
  s ← to_string source;
  title ← get element "title";
  t ← to_string title;
  Ok ("<" +:+ s +:+ "|" +:+ t +:+ ">").

Definition generateSlackAudioData (element : value) : result value :=
  text ← link_text element;
  Ok (VObj (<["text" := VStr text]> (<["unfurl_links" := VBool true]>
              {[ "unfurl_media" := VBool true ]}))).

Definition generateSlackVideoData (element : value) : result value :=
  text ← link_text element;
  Ok (VObj (<["text" := VStr text]> (<["unfurl_links" := VBool true]>
              {[ "unfurl_media" := VBool true ]}))).

(** The callback of [element.options.map]. *)
Definition option_button (optionObj : value) : result value :=
  let updatedOptionObj : gmap string value := ∅ in
  name ← get optionObj "label";
  let updatedOptionObj := <["name" := name]> updatedOptionObj in
  let updatedOptionObj := <["type" := VStr "button"]> updatedOptionObj in
  text ← get optionObj "label";
  let updatedOptionObj := <["text" := text]> updatedOptionObj in
  v ← get optionObj "value";
  nv ← getNormalizedOptionsValue v;
  let updatedOptionObj := <["value" := nv]> updatedOptionObj in
  Ok (VObj updatedOptionObj).

(** [arr.map(f)]: only an array has a callable [map]. *)
Definition array_map (f : value → result value) (arr : value)
  : result (list value) :=
  match arr with
  | VArr l => mapM f l
  | _ => Err TypeError
  end.

Definition generateSlackOptionsData (element : value) : result value :=
  options ← get element "options";
  buttonsData ← array_map option_button options;
  text ← get element "title";
  callback_id ← get element "title";
  Ok (VObj {[ "attachments" :=
    VArr [ VObj (<["text" := text]> (<["callback_id" := callback_id]>
                   {[ "actions" := VArr buttonsData ]})) ] ]}).

Definition generateSlackPauseMessage (element : value) : result value :=
  Ok element.

Definition getOutputText (params : value) : result value :=
  slackEvent ← slack_field params "event";
  slackPayload ← parsed_payload params;
  if truthy slackEvent then
    text ← output_field params "text";
    s ← join text " ";
    Ok (VStr s)
  else
    js_and slackPayload (
      original_message ← get slackPayload "original_message";
      js_and original_message (
        original_message' ← get slackPayload "original_message";
        get original_message' "text")).

Definition getAttachments (params : value) : result value :=
  slackEvent ← slack_field params "event";
  if truthy slackEvent then Ok VUndef
  else
    text ← output_field params "text";
    s ← join text " ";
    Ok (VArr [ VObj {[ "text" := VStr s ]} ]).

Definition getOriginalMessageTimestamp (params : value) : result value :=
  slackEvent ← slack_field params "event";
  slackPayload ← parsed_payload params;
  if truthy slackEvent then
    message ← get slackEvent "message";
    nested ← js_and message (message' ← get slackEvent "message"; get message' "ts");
    js_or nested (get slackEvent "ts")
  else
    js_and slackPayload (
      original_message ← get slackPayload "original_message";
      js_and original_message (
        original_message' ← get slackPayload "original_message";
        get original_message' "ts")).

Definition validateParameters (params : value) : result unit :=
  conversation ← get params "conversation";
  assert conversation (Some "No conversation output.");;
  conversation' ← get params "conversation";
  output ← get conversation' "output";
  assert output (Some "No conversation output message.");;
  slack ← output_field params "slack";
  content ← js_or slack (
    generic ← output_field params "generic";
    js_or generic (output_field params "text"));
  assert content (Some "No facebook/generic/text field in conversation.output.");;
  raw_input_data ← get params "raw_input_data";
  assert raw_input_data (Some "No raw input data found.");;
  raw_input_data' ← get params "raw_input_data";
  slack_in ← get raw_input_data' "slack";
  assert slack_in (Some "No Slack input data found.");;
  raw_input_data'' ← get params "raw_input_data";
  conversation_in ← get raw_input_data'' "conversation";
  assert conversation_in (Some "No Conversation input data found.");;
  slackEvent ← slack_field params "event";
  slackPayload ← parsed_payload params;
  slackChannel ← channel_of slackEvent slackPayload;
  assert slackChannel (Some "No Slack channel found in raw data.").

(** [slackOutput.message.push(x)] *)
Definition push_message (slackOutput : gmap string value) (x : value)
  : result (gmap string value) :=
  match slackOutput !! "message" with
  | Some (VArr l) => Ok (<["message" := VArr (l ++ [x])]> slackOutput)
  | _ => Err TypeError
  end.

(** Strict equality with a string literal, as the [switch] compares. *)
Definition is_str (v : value) (s : string) : bool :=
  match v with
  | VStr s' => String.eqb s' s
  | _ => false
  end.

(** The callback of [generic.forEach]: one [switch] on
    [element.response_type], pushing onto [slackOutput.message]. *)
Definition forEach_element (slackOutput : gmap string value) (element : value)
  : result (gmap string value) :=
  response_type ← get element "response_type";
  if is_str response_type "image" then
    m ← generateSlackImageData element; push_message slackOutput m
  else if is_str response_type "audio" then
    m ← generateSlackAudioData element; push_message slackOutput m
  else if is_str response_type "video" then
    m ← generateSlackVideoData element; push_message slackOutput m
  else if is_str response_type "option" then
    m ← generateSlackOptionsData element; push_message slackOutput m
  else if is_str response_type "pause" then
    m ← generateSlackPauseMessage element; push_message slackOutput m
  else if is_str response_type "text" then
    text ← get element "text";
    push_message slackOutput (VObj {[ "text" := text ]})
  else Ok slackOutput.

(** [arr.forEach(f)] with the state the callback updates threaded through. *)
Fixpoint forEach {S : Type} (f : S → value → result S) (l : list value) (s : S)
  : result S :=
  match l with
  | [] => Ok s
  | x :: r => s' ← f s x; forEach f r s'
  end.

(** [generic instanceof Array ? generic : [Object.assign({}, generic)]] *)
Definition generic_elements (generic : value) : list value :=
  match generic with
  | VArr l => l
  | _ => [VObj (own_props generic)]
  end.

(** The assignment [target[key] = v] on an object made by the action.  The
    name [__proto__] is not a property of such an object: assigning to it
    runs the setter inherited from [Object.prototype], which leaves the own
    properties as they are. *)
Definition set_property (target : gmap string value) (key : string) (v : value)
  : gmap string value :=
  if String.eqb key "__proto__" then target else <[key := v]> target.

(** [Object.keys(src).forEach(key => { target[key] = src[key]; })] *)
Definition assign_keys (target : gmap string value) (src : value)
  : gmap string value :=
  map_fold (λ key v acc, set_property acc key v) target (own_props src).

Definition insertConversationOutput (params : value) (output : gmap string value)
  : result value :=
  let slackOutput := output in
  (* 1. if the dialog-node contained slack-specific data, use that entirely *)
  slack ← output_field params "slack";
  if truthy slack then
    slack' ← output_field params "slack";
    Ok (VObj (assign_keys slackOutput slack'))
  else
    ts ← getOriginalMessageTimestamp params;
    let slackOutput := if truthy ts then <["ts" := ts]> slackOutput else slackOutput in
    (* 2. generic response_types support *)
    generic ← output_field params "generic";
    if truthy generic then
      generic' ← output_field params "generic";
      let generic := generic_elements generic' in
      let slackOutput := <["message" := VArr []]> slackOutput in
      slackOutput ← forEach forEach_element generic slackOutput;
      Ok (VObj slackOutput)
    else
      (* 3. if Conversation output is text only *)
      text ← getOutputText params;
      let slackOutput := if truthy text then <["text" := text]> slackOutput else slackOutput in
      attachments ← getAttachments params;
      let slackOutput :=
        if truthy attachments then <["attachments" := attachments]> slackOutput
        else slackOutput in
      Ok (VObj slackOutput).

(** The body of the executor of [main], up to the value passed to
    [resolve]. *)
Definition main_body (params : value) : result value :=
  validateParameters params;;
  channel ← getSlackChannel params;
  url ← getSlackPostUrl params;
  raw_input_data ← get params "raw_input_data";
  conversation ← get params "conversation";
  let output : gmap string value :=
    <["channel" := channel]> (<["url" := url]>
      (<["raw_input_data" := raw_input_data]>
        {[ "raw_output_data" := VObj {[ "conversation" := conversation ]} ]})) in
  insertConversationOutput params output.

Definition main (params : value) : completion promise :=
  Return (new_Promise (λ p,
    match main_body params with
    | Ok out => (resolve out p, Ok ())
    | Err e => (p, Err e)
    end)).

End Action.

Arguments main_body JSON_parse params : simpl never.

(** ** A JSON reader for the examples

    The theorems hold for every reader [JSON_parse].  The examples run the
    action on a reader of the JSON fragment without escape sequences,
    fractions and exponents; the texts of the examples are in that
    fragment or are not JSON at all. *)

Module Reader.

Import Stdlib.Strings.Ascii.
Local Open Scope char_scope.

Definition quote : ascii := "034".

Definition is_ws (c : ascii) : bool :=
  Ascii.eqb c " " || Ascii.eqb c "009" || Ascii.eqb c "010" || Ascii.eqb c "013".

Fixpoint skip_ws (cs : list ascii) : list ascii :=
  match cs with
  | c :: r => if is_ws c then skip_ws r else cs
  | [] => []
  end.

(** [strip p cs] removes the prefix [p] of [cs]. *)
Fixpoint strip (p : list ascii) (cs : list ascii) : option (list ascii) :=
  match p, cs with
  | [], _ => Some cs
  | a :: p', c :: r => if Ascii.eqb a c then strip p' r else None
  | _ :: _, [] => None
  end.

Definition digit (c : ascii) : option Z :=
  let n := Z.of_nat (nat_of_ascii c) in
  if ((48 <=? n) && (n <=? 57))%Z then Some (n - 48)%Z else None.

Fixpoint read_digits (acc : Z) (cs : list ascii) : Z * list ascii :=
  match cs with
  | c :: r =>
      match digit c with
      | Some d => read_digits (10 * acc + d) r
      | None => (acc, cs)
      end
  | [] => (acc, [])
  end.

(** A run of digits, at least one, with no leading zero before another
    digit. *)
Definition read_natural (cs : list ascii) : option (Z * list ascii) :=
  match cs with
  | c :: r =>
      _ ← digit c;
      match r with
      | d :: _ =>
          if Ascii.eqb c "0" && bool_decide (is_Some (digit d)) then None
          else Some (read_digits 0 cs)
      | [] => Some (read_digits 0 cs)
      end
  | [] => None
  end.

(** The characters of a string literal up to its closing quote. *)
Fixpoint read_chars (cs : list ascii) : option (string * list ascii) :=
  match cs with
  | [] => None
  | c :: r =>
      if Ascii.eqb c quote then Some (EmptyString, r)
      else if Ascii.eqb c "\" then None
      else '(s, r') ← read_chars r; Some (String c s, r')
  end.

Definition literal (p : string) (v : value) (cs : list ascii)
  : option (value * list ascii) :=
  r ← strip (String.list_ascii_of_string p) cs; Some (v, r).

Fixpoint read_value (fuel : nat) (cs : list ascii) {struct fuel}
  : option (value * list ascii) :=
  match fuel with
  | O => None
  | S n =>
      match skip_ws cs with
      | [] => None
      | c :: r =>
          if Ascii.eqb c quote then
            '(s, r') ← read_chars r; Some (VStr s, r')
          else if Ascii.eqb c "[" then
            match skip_ws r with
            | "]" :: r' => Some (VArr [], r')
            | _ => '(l, r') ← read_elements n r; Some (VArr l, r')
            end
          else if Ascii.eqb c "{" then
            match skip_ws r with
            | "}" :: r' => Some (VObj ∅, r')
            | _ => '(o, r') ← read_members n r; Some (VObj o, r')
            end
          else if Ascii.eqb c "-" then
            '(z, r') ← read_natural r; Some (VNum (- z), r')
          else if bool_decide (is_Some (digit c)) then
            '(z, r') ← read_natural (c :: r); Some (VNum z, r')
          else
            match literal "null" VNull (c :: r) with
            | Some x => Some x
            | None =>
                match literal "true" (VBool true) (c :: r) with
                | Some x => Some x
                | None => literal "false" (VBool false) (c :: r)
                end
            end
      end
  end
with read_elements (fuel : nat) (cs : list ascii) {struct fuel}
  : option (list value * list ascii) :=
  match fuel with
  | O => None
  | S n =>
      '(v, r) ← read_value n cs;
      match skip_ws r with
      | "]" :: r' => Some ([v], r')
      | "," :: r' => '(l, r'') ← read_elements n r'; Some (v :: l, r'')
      | _ => None
      end
  end
with read_members (fuel : nat) (cs : list ascii) {struct fuel}
  : option (gmap string value * list ascii) :=
  match fuel with
  | O => None
  | S n =>
      match skip_ws cs with
      | c :: r =>
          if Ascii.eqb c quote then
            '(k, r1) ← read_chars r;
            match skip_ws r1 with
            | ":" :: r2 =>
                '(v, r3) ← read_value n r2;
                match skip_ws r3 with
                | "}" :: r4 => Some ({[ k := v ]}, r4)
                | "," :: r4 =>
                    (* a later member with the same name wins *)
                    '(o, r5) ← read_members n r4; Some (o ∪ {[ k := v ]}, r5)
                | _ => None
                end
            | _ => None
            end
          else None
      | [] => None
      end
  end.

(** The whole text must be one value. *)
Definition parse_json (s : string) : option value :=
  let cs := String.list_ascii_of_string s in
  '(v, r) ← read_value (S (length cs)) cs;
  match skip_ws r with
  | [] => Some v
  | _ => None
  end.

(** JSON text is written in the examples with ['] for the quote
    character. *)
Fixpoint dq (s : string) : string :=
  match s with
  | EmptyString => EmptyString
  | String c r => String (if Ascii.eqb c "'" then quote else c) (dq r)
  end.

End Reader.
Import Reader.

(** ** Example inputs *)

Module Examples.

Definition obj (l : list (string * value)) : value := VObj (list_to_map l).

Definition event_data : value :=
  obj [("slack", obj [("event", obj [("channel", VStr "D024BE7RE"); ("ts", VStr "1.5")])]);
       ("conversation", obj [("input", obj [("text", VStr "hi")])])].

Definition payload_text : string :=
  dq "{'channel':{'id':'C1'},'original_message':{'ts':'123','text':'orig'}}".

Definition payload_data : value :=
  obj [("slack", obj [("payload", VStr payload_text)]);
       ("conversation", obj [("input", obj [("text", VStr "hi")])])].

Definition with_output (raw : value) (output : list (string * value)) : value :=
  obj [("conversation", obj [("output", obj output)]); ("raw_input_data", raw)].

Definition text_ab : list (string * value) := [("text", VArr [VStr "a"; VStr "b"])].

Definition text_input : value := with_output event_data text_ab.

(** The result on [text_input]. *)
Definition text_result : gmap string value :=
  list_to_map
    [("channel", VStr "D024BE7RE"); ("url", VStr urlChatPost);
     ("raw_input_data", event_data);
     ("raw_output_data", obj [("conversation", obj [("output", obj text_ab)])]);
     ("ts", VStr "1.5"); ("text", VStr "a b")].

(** An override that redirects the post. *)
Definition redirect_input : value :=
  with_output event_data
    [("slack", obj [("url", VStr "https://example.org/hook");
                    ("channel", VStr "elsewhere")])].

Definition payload_input : value := with_output payload_data text_ab.

(** An event-shape input whose text list joins to the empty string. *)
Definition empty_text_input : value :=
  with_output event_data [("text", VArr [])].





Definition unknown_element : value :=
  obj [("response_type", VStr "unknown")].





Definition audio_element : value :=
  obj [("response_type", VStr "audio"); ("title", VStr "T"); ("source", VStr "S")].

Definition pause_element : value :=
  obj [("response_type", VStr "pause"); ("time", VNum 500); ("typing", VBool true)].

Definition text_element : value :=
  obj [("response_type", VStr "text"); ("text", VStr "hi")].

(** An option whose structured value has no [input.text]. *)
Definition bad_option_input : value :=
  with_output event_data
    [("generic", VArr [ obj [("response_type", VStr "option"); ("title", VStr "Pick");
                             ("options", VArr [ obj [("label", VStr "Yes");
                                                     ("value", obj [])] ])] ])].

(** Inbound data whose payload is not JSON text. *)
Definition unparseable_input : value :=
  with_output
    (obj [("slack", obj [("payload", VStr "{oops")]);
          ("conversation", obj [("input", obj [("text", VStr "hi")])])])
    text_ab.

(** Inbound data with neither an event nor a payload. *)
Definition no_channel_input : value :=
  with_output
    (obj [("slack", obj [("bot_id", VStr "B1")]);
          ("conversation", obj [("input", obj [("text", VStr "hi")])])])
    text_ab.

(** An event next to a payload whose text is the JSON literal [null]. *)
Definition null_payload_input : value :=
  with_output
    (obj [("slack", obj [("event", obj [("channel", VStr "D024BE7RE")]);
                         ("payload", VStr "null")]);
          ("conversation", obj [("input", obj [("text", VStr "hi")])])])
    text_ab.

(** An event without a channel next to a payload that names one. *)
Definition event_no_channel_input : value :=
  with_output
    (obj [("slack", obj [("event", obj [("ts", VStr "1.5")]);
                         ("payload", VStr payload_text)]);
          ("conversation", obj [("input", obj [("text", VStr "hi")])])])
    text_ab.

(** A conversation output whose text is a string, not a list. *)
Definition string_text_input : value :=
  with_output event_data [("text", VStr "hello")].

(** An empty override next to a text. *)
Definition empty_override_input : value :=
  with_output event_data [("slack", obj []); ("text", VArr [VStr "a"; VStr "b"])].


Definition structured_value : value := obj [("input", obj [("text", VStr "n")])].

(** A payload that names a channel and nothing else. *)
Definition bare_payload_input : value :=
  with_output
    (obj [("slack", obj [("payload", VStr (dq "{'channel':{'id':'C1'}}"))]);
          ("conversation", obj [("input", obj [("text", VStr "hi")])])])
    text_ab.



(** An override that carries a message list, a text and attachments. *)
Definition mixing_override : gmap string value :=
  list_to_map [("message", VArr [obj [("text", VStr "m")]]);
               ("text", VStr "t");
               ("attachments", VArr [obj [("text", VStr "a")]])].

Definition mixing_override_input : value :=
  with_output event_data [("slack", VObj mixing_override)].

End Examples.
Import Examples.

(** ** Vocabulary of the specification *)

(** A field read that never throws: [undefined] when there is nothing to
    read from. *)
Definition field (v : value) (k : string) : value :=
  match get v k with
  | Ok x => x
  | Err _ => VUndef
  end.

(** The parts of the input the specification names. *)
Definition conversation_of (params : value) : value := field params "conversation".
Definition output_of (params : value) : value := field (conversation_of params) "output".
Definition raw_of (params : value) : value := field params "raw_input_data".
Definition slack_of (params : value) : value := field (raw_of params) "slack".
Definition event_of (params : value) : value := field (slack_of params) "event".
Definition payload_of (params : value) : value := field (slack_of params) "payload".

(** A field is set only to a value that is there. *)
Definition present (v : value) : option value :=
  if truthy v then Some v else None.

(** The four fields every result starts from. *)
Definition base_output (channel url : value) (params : value) : gmap string value :=
  <["channel" := channel]> (<["url" := url]>
    (<["raw_input_data" := raw_of params]>
      {[ "raw_output_data" := VObj {[ "conversation" := conversation_of params ]} ]})).

(** [set_present k v m] sets the field [k] of [m] when [v] is there. *)
Definition set_present (k : string) (v : value) (m : gmap string value)
  : gmap string value :=
  match present v with
  | Some x => <[k := x]> m
  | None => m
  end.

(** Step 2 of the specification: destination and delivery endpoint, from
    the event, the payload field and the parsed payload. *)
Definition spec_channel (event parsed : value) : value :=
  if truthy event then field event "channel"
  else field (field parsed "channel") "id".

Definition spec_url (payload parsed : value) : value :=
  if truthy payload then
    match present (field parsed "response_url") with
    | Some url => url
    | None => VStr urlChatUpdate
    end
  else VStr urlChatPost.

(** Step 4: the timestamp of the previous message. *)
Definition spec_timestamp (event parsed : value) : value :=
  if truthy event then
    match present (field (field event "message") "ts") with
    | Some ts => ts
    | None => field event "ts"
    end
  else field (field parsed "original_message") "ts".

(** Option-value normalisation, in the words of the specification: a
    string passes through, a structured value must hold a non-empty string
    at [input.text], anything else fails validation. *)
Definition spec_option_value (v : value) : result value :=
  match v with
  | VStr _ => Ok v
  | VObj _ | VArr _ =>
      match field (field v "input") "text" with
      | VStr s => if String.eqb s "" then Err (AssertionError None) else Ok (VStr s)
      | _ => Err (AssertionError None)
      end
  | _ => Err (AssertionError None)
  end.

Definition spec_button (optionObj : value) : result value :=
  label ← get optionObj "label";
  v ← get optionObj "value";
  nv ← spec_option_value v;
  Ok (VObj (list_to_map
    [("name", label); ("type", VStr "button"); ("text", label); ("value", nv)])).

(** Step 5: the table of per-element generators.  [None] is "no entry". *)
Definition spec_submessage (element : value) : result (option value) :=
  response_type ← get element "response_type";
  match response_type with
  | VStr kind =>
      if String.eqb kind "image" then
        Ok (Some (VObj (list_to_map [("attachments", VArr [VObj (list_to_map
          [("title", field element "title");
           ("pretext", field element "description");
           ("image_url", field element "source")])])])))
      else if String.eqb kind "audio" || String.eqb kind "video" then
        source ← to_string (field element "source");
        title ← to_string (field element "title");
        Ok (Some (VObj (list_to_map
          [("text", VStr ("<" +:+ source +:+ "|" +:+ title +:+ ">"));
           ("unfurl_links", VBool true); ("unfurl_media", VBool true)])))
      else if String.eqb kind "option" then
        buttons ← array_map spec_button (field element "options");
        Ok (Some (VObj (list_to_map [("attachments", VArr [VObj (list_to_map
          [("text", field element "title");
           ("callback_id", field element "title");
           ("actions", VArr buttons)])])])))
      else if String.eqb kind "pause" then Ok (Some element)
      else if String.eqb kind "text" then
        Ok (Some (VObj (list_to_map [("text", field element "text")])))
      else Ok None
  | _ => Ok None
  end.

(** The entries of a list of generated sub-messages, in order. *)
Definition entries (subs : list (option value)) : list value := omap id subs.

(** How the call of the action may end, as the specification words it. *)
Definition never_rejects (c : completion promise) : Prop :=
  ∀ p e, c = Return p → p ≠ Rejected e.

Definition raises_synchronously (c : completion promise) : Prop :=
  ∃ e, c = Throw e.

(** What a successful validation has established: the required parts are
    there, the payload (if any) has been parsed to [parsed] and the
    destination [channel] has been resolved. *)
Record valid_view (JSON_parse : string → option value)
    (params parsed channel : value) : Prop := {
  vv_conversation : truthy (conversation_of params) = true;
  vv_output : truthy (output_of params) = true;
  vv_content :
    truthy (field (output_of params) "slack")
    || truthy (field (output_of params) "generic")
    || truthy (field (output_of params) "text") = true;
  vv_raw : truthy (raw_of params) = true;
  vv_slack : truthy (slack_of params) = true;
  vv_conversation_in : truthy (field (raw_of params) "conversation") = true;
  vv_parsed :
    parsed = payload_of params ∧ truthy (payload_of params) = false
    ∨ truthy (payload_of params) = true
      ∧ js_JSON_parse JSON_parse (payload_of params) = Ok parsed;
  vv_channel : channel_of (event_of params) parsed = Ok channel;
  vv_channel_truthy : truthy channel = true
}.

(** A valid input: it passes validation (step 1), and [channel] and [url]
    are the destination and the delivery endpoint resolved from it
    (step 2). *)
Definition valid_input (JSON_parse : string → option value)
    (params channel url : value) : Prop :=
  validateParameters JSON_parse params = Ok ()
  ∧ getSlackChannel JSON_parse params = Ok channel
  ∧ getSlackPostUrl JSON_parse params = Ok url.

(** The value of [slack || generic || text] on the conversation output. *)
Definition content_of (params : value) : value :=
  if truthy (field (output_of params) "slack")
  then field (output_of params) "slack"
  else if truthy (field (output_of params) "generic")
  then field (output_of params) "generic"
  else field (output_of params) "text".

(** The messages of the assertions of [validateParameters], in the order
    of the checks. *)
Definition validation_messages : list string :=
  [ "No conversation output.";
    "No conversation output message.";
    "No facebook/generic/text field in conversation.output.";
    "No raw input data found.";
    "No Slack input data found.";
    "No Conversation input data found.";
    "No Slack channel found in raw data." ].


(** ** Basic facts about the primitives *)

(** Reduces the binds of [result] whose first computation has returned. *)
Ltac rsimpl := cbn [mbind result_bind mret result_ret].
Tactic Notation "rsimpl" "in" hyp(H) := cbn [mbind result_bind mret result_ret] in H.

Lemma bind_Ok {A B} (m : result A) (f : A → result B) (b : B) :
  m ≫= f = Ok b ↔ ∃ a, m = Ok a ∧ f a = Ok b.
Proof.
  destruct m as [a|e]; simpl; split.
  - intros H. by exists a.
  - by intros (a' & [= ->] & H).
  - discriminate.
  - by intros (a' & [=] & _).
Qed.

Lemma assert_Ok v msg u : assert v msg = Ok u ↔ truthy v = true.
Proof. unfold assert. destruct (truthy v), u; split; congruence. Qed.

Lemma assert_truthy v msg : truthy v = true → assert v msg = Ok ().
Proof. unfold assert. by intros ->. Qed.

Lemma assert_falsy v msg :
  truthy v = false → assert v msg = Err (AssertionError msg).
Proof. unfold assert. by intros ->. Qed.

Lemma get_truthy v k : truthy v = true → get v k = Ok (field v k).
Proof.
  unfold field. destruct v; simpl; try discriminate; intros _; try done.
  all: by destruct (String.eqb k "length").
Qed.

Lemma get_Ok v k x : get v k = Ok x → x = field v k.
Proof. unfold field. by intros ->. Qed.

Lemma js_and_falsy a b : truthy a = false → js_and a b = Ok a.
Proof. unfold js_and. by intros ->. Qed.

Lemma js_and_truthy a b : truthy a = true → js_and a b = b.
Proof. unfold js_and. by intros ->. Qed.

Lemma js_or_falsy a b : truthy a = false → js_or a b = b.
Proof. unfold js_or. by intros ->. Qed.

Lemma js_or_truthy a b : truthy a = true → js_or a b = Ok a.
Proof. unfold js_or. by intros ->. Qed.

Lemma present_truthy v : truthy v = true → present v = Some v.
Proof. unfold present. by intros ->. Qed.

Lemma present_falsy v : truthy v = false → present v = None.
Proof. unfold present. by intros ->. Qed.

Lemma field_falsy_ts v : truthy v = false → truthy (field v "ts") = false.
Proof.
  unfold field. destruct v as [| |b|n|s|l|o]; try done.
  destruct s; [done|discriminate].
Qed.

(** ** Reading the input *)

Section Reading.

Variable JSON_parse : string → option value.

Lemma output_field_Ok params k :
  truthy (conversation_of params) = true →
  truthy (output_of params) = true →
  output_field params k = Ok (field (output_of params) k).
Proof.
  intros Hc Ho. unfold output_field.
  assert (Hp : get params "conversation" = Ok (conversation_of params)).
  { unfold conversation_of, field in *.
    destruct (get params "conversation"); [done|discriminate]. }
  rewrite Hp. rsimpl. rewrite (get_truthy _ _ Hc). rsimpl.
  by rewrite (get_truthy _ _ Ho).
Qed.

Lemma get_raw_Ok params :
  truthy (raw_of params) = true →
  get params "raw_input_data" = Ok (raw_of params).
Proof.
  unfold raw_of, field. by destruct (get params "raw_input_data").
Qed.

Lemma get_conversation_Ok params :
  truthy (conversation_of params) = true →
  get params "conversation" = Ok (conversation_of params).
Proof.
  unfold conversation_of, field. by destruct (get params "conversation").
Qed.

Lemma slack_field_Ok params k :
  truthy (raw_of params) = true →
  truthy (slack_of params) = true →
  slack_field params k = Ok (field (slack_of params) k).
Proof.
  intros Hr Hs. unfold slack_field.
  rewrite (get_raw_Ok _ Hr). rsimpl. rewrite (get_truthy _ _ Hr). rsimpl.
  by rewrite (get_truthy _ _ Hs).
Qed.

Lemma parsed_payload_eq params :
  truthy (raw_of params) = true →
  truthy (slack_of params) = true →
  parsed_payload JSON_parse params =
    js_and (payload_of params) (js_JSON_parse JSON_parse (payload_of params)).
Proof.
  intros Hr Hs. unfold parsed_payload.
  rewrite (slack_field_Ok _ _ Hr Hs). rsimpl. by fold (payload_of params).
Qed.

(** Once the six presence checks have passed, what is left of the
    validation is the parse of the payload and the check of the channel. *)
Lemma validate_checked params :
  truthy (conversation_of params) = true →
  truthy (output_of params) = true →
  truthy (field (output_of params) "slack")
    || truthy (field (output_of params) "generic")
    || truthy (field (output_of params) "text") = true →
  truthy (raw_of params) = true →
  truthy (slack_of params) = true →
  truthy (field (raw_of params) "conversation") = true →
  validateParameters JSON_parse params =
    (slackPayload ← js_and (payload_of params)
                      (js_JSON_parse JSON_parse (payload_of params));
     slackChannel ← channel_of (event_of params) slackPayload;
     assert slackChannel (Some "No Slack channel found in raw data.")).
Proof.
  intros Hc Ho Hct Hr Hs Hci. unfold validateParameters.
  rewrite (get_conversation_Ok _ Hc). rsimpl.
  rewrite (assert_truthy _ _ Hc). rsimpl.
  rewrite (get_truthy _ _ Hc). rsimpl. fold (output_of params).
  rewrite (assert_truthy _ _ Ho). rsimpl.
  rewrite !(output_field_Ok _ _ Hc Ho). rsimpl.
  assert (Hcontent : ∃ content,
    js_or (field (output_of params) "slack")
      (js_or (field (output_of params) "generic")
         (Ok (field (output_of params) "text"))) = Ok content
    ∧ truthy content = true).
  { unfold js_or.
    destruct (truthy (field (output_of params) "slack")) eqn:E1; [eauto|].
    destruct (truthy (field (output_of params) "generic")) eqn:E2; [eauto|].
    eauto. }
  destruct Hcontent as (content & -> & Hcontent). rsimpl.
  rewrite (assert_truthy _ _ Hcontent). rsimpl.
  rewrite (get_raw_Ok _ Hr). rsimpl.
  rewrite (assert_truthy _ _ Hr). rsimpl.
  rewrite !(get_truthy _ _ Hr). rsimpl. fold (slack_of params).
  rewrite (assert_truthy _ _ Hs). rsimpl.
  rewrite (assert_truthy _ _ Hci). rsimpl.
  rewrite (slack_field_Ok _ _ Hr Hs). rsimpl.
  by rewrite (parsed_payload_eq _ Hr Hs).
Qed.

(** The presence checks, read off a validation that has passed. *)
Lemma validate_presence params :
  validateParameters JSON_parse params = Ok () →
  truthy (conversation_of params) = true
  ∧ truthy (output_of params) = true
  ∧ truthy (field (output_of params) "slack")
      || truthy (field (output_of params) "generic")
      || truthy (field (output_of params) "text") = true
  ∧ truthy (raw_of params) = true
  ∧ truthy (slack_of params) = true
  ∧ truthy (field (raw_of params) "conversation") = true.
Proof.
  unfold validateParameters. intros H.
  apply bind_Ok in H as (c & Hc & H).
  apply bind_Ok in H as ([] & Hc1%assert_Ok & H).
  apply get_Ok in Hc as ->. fold (conversation_of params) in Hc1.
  rewrite (get_conversation_Ok _ Hc1) in H. rsimpl in H.
  rewrite (get_truthy _ _ Hc1) in H. rsimpl in H.
  apply bind_Ok in H as ([] & Ho%assert_Ok & H).
  fold (output_of params) in Ho.
  rewrite !(output_field_Ok _ _ Hc1 Ho) in H. rsimpl in H.
  apply bind_Ok in H as (content & Hcontent & H).
  apply bind_Ok in H as ([] & Hct%assert_Ok & H).
  apply bind_Ok in H as (r & Hr & H).
  apply bind_Ok in H as ([] & Hr1%assert_Ok & H).
  apply get_Ok in Hr as ->. fold (raw_of params) in Hr1.
  rewrite (get_raw_Ok _ Hr1) in H. rsimpl in H.
  rewrite !(get_truthy _ _ Hr1) in H. rsimpl in H.
  apply bind_Ok in H as ([] & Hs%assert_Ok & H).
  fold (slack_of params) in Hs.
  apply bind_Ok in H as ([] & Hci%assert_Ok & H).
  repeat split; try done.
  unfold js_or in Hcontent.
  destruct (truthy (field (output_of params) "slack")); [done|].
  destruct (truthy (field (output_of params) "generic")) eqn:Hg; [done|].
  cbn. by injection Hcontent as ->.
Qed.

Lemma validate_Ok params :
  validateParameters JSON_parse params = Ok () ↔
  ∃ parsed channel, valid_view JSON_parse params parsed channel.
Proof.
  split.
  - intros H.
    pose proof (validate_presence _ H) as (Hc & Ho & Hct & Hr & Hs & Hci).
    rewrite validate_checked in H by done.
    apply bind_Ok in H as (parsed & Hp & H).
    apply bind_Ok in H as (channel & Hch & Hcht%assert_Ok).
    exists parsed, channel. split; try done.
    unfold js_and in Hp. destruct (truthy (payload_of params)).
    + by right.
    + left. by injection Hp as ->.
  - intros (parsed & channel & [Hc Ho Hct Hr Hs Hci Hp Hch Hcht]).
    rewrite validate_checked by done.
    assert (js_and (payload_of params)
              (js_JSON_parse JSON_parse (payload_of params)) = Ok parsed) as ->.
    { destruct Hp as [[-> Hp]|[Hp Hp']].
      - by apply js_and_falsy.
      - by rewrite js_and_truthy. }
    rsimpl. rewrite Hch. rsimpl. by apply assert_truthy.
Qed.

(** A payload that is there but is not JSON text stops the validation with
    the error of the reader, once the checks before it have passed. *)
Lemma validate_unparseable params e :
  truthy (conversation_of params) = true →
  truthy (output_of params) = true →
  truthy (field (output_of params) "slack")
    || truthy (field (output_of params) "generic")
    || truthy (field (output_of params) "text") = true →
  truthy (raw_of params) = true →
  truthy (slack_of params) = true →
  truthy (field (raw_of params) "conversation") = true →
  truthy (payload_of params) = true →
  js_JSON_parse JSON_parse (payload_of params) = Err e →
  validateParameters JSON_parse params = Err e.
Proof.
  intros Hc Ho Hct Hr Hs Hci Hp Hparse.
  rewrite validate_checked by done.
  by rewrite (js_and_truthy _ _ Hp), Hparse.
Qed.

End Reading.

(** ** Option values and the generators *)

Lemma field_text_falsy i : truthy i = false → field i "text" = VUndef.
Proof.
  destruct i as [| |b|n|s|l|o]; try done.
  destruct s; [done|discriminate].
Qed.

Lemma typeof_truthy t : truthy (VStr (typeof t)) = true.
Proof. by destruct t. Qed.

Lemma getNormalizedOptionsValue_spec v :
  getNormalizedOptionsValue v = spec_option_value v.
Proof.
  assert (Hobj : instanceof_Object v = true →
    getNormalizedOptionsValue v =
      match field (field v "input") "text" with
      | VStr s => if String.eqb s "" then Err (AssertionError None) else Ok (VStr s)
      | _ => Err (AssertionError None)
      end).
  { intros Hv. unfold getNormalizedOptionsValue. rewrite Hv.
    assert (Hi : get v "input" = Ok (field v "input")).
    { apply get_truthy. by destruct v. }
    rewrite !Hi. rsimpl.
    destruct (truthy (field v "input")) eqn:Ht.
    - rewrite (js_and_truthy _ _ Ht).
      rewrite !(get_truthy _ _ Ht). rsimpl.
      set (t := field (field v "input") "text").
      destruct (truthy t) eqn:Htt.
      + rewrite (assert_truthy _ _ Htt). rsimpl.
        rewrite (assert_truthy _ _ (typeof_truthy t)). rsimpl.
        destruct t as [| |b|n|s|l|o]; try done.
        cbn in Htt. by destruct (String.eqb s "").
      + rewrite (assert_falsy _ _ Htt). rsimpl.
        destruct t as [| |b|n|s|l|o]; try done.
        cbn in Htt. by destruct (String.eqb s "").
    - rewrite (js_and_falsy _ _ Ht). rsimpl.
      rewrite (assert_falsy _ _ Ht). rsimpl.
      by rewrite (field_text_falsy _ Ht). }
  destruct v as [| |b|n|s|l|o]; try reflexivity; by apply Hobj.
Qed.

Lemma option_button_spec optionObj :
  option_button optionObj = spec_button optionObj.
Proof.
  unfold option_button, spec_button.
  destruct (get optionObj "label") as [label|e]; [rsimpl|done].
  destruct (get optionObj "value") as [v|e]; [rsimpl|done].
  rewrite getNormalizedOptionsValue_spec.
  by destruct (spec_option_value v).
Qed.

Lemma mapM_ext_result {A B} (f g : A → result B) l :
  (∀ x, f x = g x) → mapM f l = mapM g l.
Proof. intros Hfg. induction l as [|x l IH]; [done|]. cbn. by rewrite Hfg, IH. Qed.

Lemma generateSlackOptionsData_spec element :
  generateSlackOptionsData element =
    (options ← get element "options";
     buttons ← array_map spec_button options;
     Ok (VObj (list_to_map [("attachments", VArr [VObj (list_to_map
          [("text", field element "title");
           ("callback_id", field element "title");
           ("actions", VArr buttons)])])]))).
Proof.
  unfold generateSlackOptionsData.
  destruct (get element "options") as [options|e] eqn:Ho; [rsimpl|done].
  assert (Ht : get element "title" = Ok (field element "title")).
  { unfold field. destruct element; try done; cbn in *; try done.
    all: by destruct (String.eqb _ _). }
  rewrite !Ht.
  assert (array_map option_button options = array_map spec_button options) as ->.
  { destruct options; try done. cbn. apply mapM_ext_result, option_button_spec. }
  by destruct (array_map spec_button options).
Qed.

Lemma get_total element k0 x k :
  get element k0 = Ok x → get element k = Ok (field element k).
Proof.
  intros H. unfold field. destruct element; try done; cbn in *.
  all: by destruct (String.eqb k "length").
Qed.

(** One step of the loop is the generator of the table followed by a
    push of its entry, if any. *)
Lemma forEach_element_spec slackOutput element :
  forEach_element slackOutput element =
    (sub ← spec_submessage element;
     match sub with
     | Some m => push_message slackOutput m
     | None => Ok slackOutput
     end).
Proof.
  unfold forEach_element, spec_submessage.
  destruct (get element "response_type") as [rt|e] eqn:Hrt; [rsimpl|done].
  pose proof (get_total _ _ _ "title" Hrt) as Htitle.
  pose proof (get_total _ _ _ "description" Hrt) as Hdescription.
  pose proof (get_total _ _ _ "source" Hrt) as Hsource.
  pose proof (get_total _ _ _ "text" Hrt) as Htext.
  pose proof (get_total _ _ _ "options" Hrt) as Hoptions.
  destruct rt as [| |b|n|kind|l|o]; try reflexivity.
  cbn [is_str].
  destruct (String.eqb kind "image").
  { unfold generateSlackImageData.
    rewrite Htitle, Hdescription, Hsource. reflexivity. }
  destruct (String.eqb kind "audio").
  { unfold generateSlackAudioData, link_text.
    rewrite Htitle, Hsource. rsimpl. cbn [orb].
    destruct (to_string (field element "source")); [rsimpl|done].
    by destruct (to_string (field element "title")). }
  destruct (String.eqb kind "video").
  { unfold generateSlackVideoData, link_text.
    rewrite Htitle, Hsource. rsimpl. cbn [orb].
    destruct (to_string (field element "source")); [rsimpl|done].
    by destruct (to_string (field element "title")). }
  cbn [orb].
  destruct (String.eqb kind "option").
  { rewrite generateSlackOptionsData_spec, Hoptions. rsimpl.
    by destruct (array_map spec_button (field element "options")). }
  destruct (String.eqb kind "pause"); [done|].
  destruct (String.eqb kind "text"); [|done].
  by rewrite Htext.
Qed.

Lemma mapM_cons_result {A B} (f : A → result B) x l :
  mapM f (x :: l) = (y ← f x; k ← mapM f l; Ok (y :: k)).
Proof. reflexivity. Qed.

(** The loop appends the entries to the [message] list in input order, or
    throws what the first failing generator throws. *)
Lemma forEach_message l : ∀ (slackOutput : gmap string value) acc,
  slackOutput !! "message" = Some (VArr acc) →
  forEach forEach_element l slackOutput =
    (subs ← mapM spec_submessage l;
     Ok (<["message" := VArr (acc ++ entries subs)]> slackOutput)).
Proof.
  induction l as [|element l IH]; intros slackOutput acc Hm.
  - cbn. rewrite app_nil_r. by rewrite insert_id.
  - cbn [forEach]. rewrite forEach_element_spec, mapM_cons_result.
    destruct (spec_submessage element) as [[m|]|e]; rsimpl; [| |done].
    + unfold push_message. rewrite Hm. rsimpl.
      rewrite (IH _ (acc ++ [m])%list) by apply lookup_insert_eq.
      destruct (mapM spec_submessage l) as [subs|e]; [rsimpl|done].
      rewrite insert_insert_eq. unfold entries. cbn.
      by rewrite <- app_assoc.
    + rewrite (IH _ acc Hm).
      by destruct (mapM spec_submessage l).
Qed.

(** ** The action on a validated input *)

Lemma assign_keys_union (target : gmap string value) (src : value) :
  assign_keys target src = delete "__proto__" (own_props src) ∪ target.
Proof.
  unfold assign_keys.
  apply (map_fold_weak_ind (λ r m, r = delete "__proto__" m ∪ target)).
  - by rewrite delete_empty, (left_id_L ∅ (∪)).
  - intros k v m r _ ->. unfold set_property.
    destruct (String.eqb_spec k "__proto__") as [->|Hk].
    + by rewrite delete_insert_eq.
    + by rewrite delete_insert_ne, insert_union_l.
Qed.

Lemma lookup_copied (src target : gmap string value) k :
  k ≠ "__proto__" → is_Some (src !! k) →
  (delete "__proto__" src ∪ target) !! k = src !! k.
Proof.
  intros Hk (v & Hv). rewrite Hv. apply lookup_union_Some_l.
  by rewrite lookup_delete_ne.
Qed.

Lemma lookup_not_copied (src target : gmap string value) k :
  src !! k = None → (delete "__proto__" src ∪ target) !! k = target !! k.
Proof. intros Hk. apply lookup_union_r, lookup_delete_None. by right. Qed.

Lemma set_present_ext k v v' (m : gmap string value) :
  present v = present v' → set_present k v m = set_present k v' m.
Proof. unfold set_present. by intros ->. Qed.

Lemma set_present_truthy k v (m : gmap string value) :
  (if truthy v then <[k := v]> m else m) = set_present k v m.
Proof. unfold set_present, present. by destruct (truthy v). Qed.

Section Validated.

Variable JSON_parse : string → option value.
Variables params parsed channel : value.
Hypothesis Hvalid : valid_view JSON_parse params parsed channel.

Lemma parsed_payload_valid : parsed_payload JSON_parse params = Ok parsed.
Proof.
  destruct Hvalid as [_ _ _ Hr Hs _ Hp _ _].
  rewrite (parsed_payload_eq _ _ Hr Hs).
  destruct Hp as [[-> Hp]|[Hp Hp']].
  - by apply js_and_falsy.
  - by rewrite js_and_truthy.
Qed.

Lemma slack_field_valid k :
  slack_field params k = Ok (field (slack_of params) k).
Proof. destruct Hvalid. by apply slack_field_Ok. Qed.

Lemma output_field_valid k :
  output_field params k = Ok (field (output_of params) k).
Proof. destruct Hvalid. by apply output_field_Ok. Qed.

Lemma getSlackChannel_valid : getSlackChannel JSON_parse params = Ok channel.
Proof.
  unfold getSlackChannel.
  rewrite slack_field_valid, parsed_payload_valid. rsimpl.
  apply Hvalid.
Qed.

(** The resolved channel is the one step 2 describes. *)
Lemma channel_valid : channel = spec_channel (event_of params) parsed.
Proof.
  destruct Hvalid as [_ _ _ _ _ _ _ Hch Ht].
  unfold channel_of, spec_channel in *.
  destruct (truthy (event_of params)) eqn:He.
  - by apply get_Ok in Hch.
  - unfold js_and in Hch. destruct (truthy parsed) eqn:Hp.
    + rewrite !(get_truthy _ _ Hp) in Hch. rsimpl in Hch.
      destruct (truthy (field parsed "channel")) eqn:Hc.
      * by apply get_Ok in Hch.
      * injection Hch as <-. congruence.
    + injection Hch as <-. congruence.
Qed.

(** Without an event the channel comes from the parsed payload, which is
    therefore there. *)
Lemma parsed_truthy : truthy (event_of params) = false → truthy parsed = true.
Proof.
  intros He. destruct Hvalid as [_ _ _ _ _ _ _ Hch Ht].
  unfold channel_of in Hch. rewrite He in Hch.
  unfold js_and in Hch. destruct (truthy parsed) eqn:Hp; [done|].
  injection Hch as <-. congruence.
Qed.

Lemma payload_truthy : truthy (event_of params) = false → truthy (payload_of params) = true.
Proof.
  intros He. pose proof (parsed_truthy He) as Hp.
  destruct Hvalid as [_ _ _ _ _ _ [[-> Hf]|[Ht _]] _ _]; congruence.
Qed.

(** The endpoint: reading [response_url] off the parsed payload is the only
    step that can throw. *)
Lemma getSlackPostUrl_valid :
  getSlackPostUrl JSON_parse params =
    (if truthy (payload_of params)
     then get parsed "response_url";; Ok (spec_url (payload_of params) parsed)
     else Ok (spec_url (payload_of params) parsed)).
Proof.
  unfold getSlackPostUrl, spec_url. rewrite !slack_field_valid. rsimpl.
  fold (payload_of params).
  destruct Hvalid as [_ _ _ _ _ _ Hp _ _].
  destruct Hp as [[_ Hp]|[Hp Hp']]; rewrite Hp; [done|].
  rewrite Hp'. rsimpl.
  destruct (get parsed "response_url") as [r|e] eqn:Hg; [rsimpl|done].
  apply get_Ok in Hg as ->. unfold js_or, present.
  by destruct (truthy (field parsed "response_url")).
Qed.

Lemma getSlackPostUrl_Ok url :
  getSlackPostUrl JSON_parse params = Ok url →
  url = spec_url (payload_of params) parsed.
Proof.
  rewrite getSlackPostUrl_valid.
  destruct (truthy (payload_of params)); [|congruence].
  destruct (get parsed "response_url"); rsimpl; congruence.
Qed.

(** With a single inbound shape the endpoint always resolves. *)
Lemma getSlackPostUrl_single_shape :
  truthy (event_of params) = false ∨ truthy (payload_of params) = false →
  getSlackPostUrl JSON_parse params = Ok (spec_url (payload_of params) parsed).
Proof.
  rewrite getSlackPostUrl_valid. intros [He| ->]; [|done].
  rewrite (get_truthy _ _ (parsed_truthy He)).
  by destruct (truthy (payload_of params)).
Qed.

Lemma getOriginalMessageTimestamp_valid :
  ∃ ts, getOriginalMessageTimestamp JSON_parse params = Ok ts
        ∧ present ts = present (spec_timestamp (event_of params) parsed).
Proof.
  unfold getOriginalMessageTimestamp, spec_timestamp.
  rewrite slack_field_valid, parsed_payload_valid. rsimpl.
  fold (event_of params).
  destruct (truthy (event_of params)) eqn:He.
  - rewrite !(get_truthy _ _ He). rsimpl.
    set (message := field (event_of params) "message").
    destruct (truthy message) eqn:Hm.
    + rewrite (js_and_truthy _ _ Hm), (get_truthy _ _ Hm). rsimpl.
      destruct (truthy (field message "ts")) eqn:Hts.
      * rewrite (js_or_truthy _ _ Hts), (present_truthy _ Hts). eauto.
      * rewrite (js_or_falsy _ _ Hts), (present_falsy _ Hts). eauto.
    + rewrite (js_and_falsy _ _ Hm). rsimpl.
      rewrite (js_or_falsy _ _ Hm).
      rewrite (present_falsy _ (field_falsy_ts _ Hm)). eauto.
  - rewrite (js_and_truthy _ _ (parsed_truthy He)).
    rewrite !(get_truthy _ _ (parsed_truthy He)). rsimpl.
    set (original := field parsed "original_message").
    destruct (truthy original) eqn:Ho.
    + rewrite (js_and_truthy _ _ Ho), (get_truthy _ _ Ho). eauto.
    + rewrite (js_and_falsy _ _ Ho). eexists; split; [done|].
      by rewrite (present_falsy _ Ho), (present_falsy _ (field_falsy_ts _ Ho)).
Qed.

Lemma getOutputText_event :
  truthy (event_of params) = true →
  getOutputText JSON_parse params =
    (s ← join (field (output_of params) "text") " "; Ok (VStr s)).
Proof.
  intros He. unfold getOutputText.
  rewrite slack_field_valid, parsed_payload_valid. rsimpl.
  fold (event_of params). rewrite He. by rewrite output_field_valid.
Qed.

Lemma getOutputText_payload :
  truthy (event_of params) = false →
  ∃ text, getOutputText JSON_parse params = Ok text
          ∧ present text = present (field (field parsed "original_message") "text").
Proof.
  intros He. unfold getOutputText.
  rewrite slack_field_valid, parsed_payload_valid. rsimpl.
  fold (event_of params). rewrite He.
  rewrite (js_and_truthy _ _ (parsed_truthy He)).
  rewrite !(get_truthy _ _ (parsed_truthy He)). rsimpl.
  set (original := field parsed "original_message").
  destruct (truthy original) eqn:Ho.
  - rewrite (js_and_truthy _ _ Ho), (get_truthy _ _ Ho). eauto.
  - rewrite (js_and_falsy _ _ Ho). eexists; split; [done|].
    rewrite (present_falsy _ Ho). symmetry. apply present_falsy.
    pose proof (field_text_falsy _ Ho) as Ht. by rewrite Ht.
Qed.

Lemma getAttachments_event :
  truthy (event_of params) = true → getAttachments params = Ok VUndef.
Proof.
  intros He. unfold getAttachments. rewrite slack_field_valid. rsimpl.
  fold (event_of params). by rewrite He.
Qed.

Lemma getAttachments_payload :
  truthy (event_of params) = false →
  getAttachments params =
    (s ← join (field (output_of params) "text") " ";
     Ok (VArr [VObj {[ "text" := VStr s ]}])).
Proof.
  intros He. unfold getAttachments. rewrite slack_field_valid. rsimpl.
  fold (event_of params). rewrite He. by rewrite output_field_valid.
Qed.

(** After validation the executor builds the base output from the resolved
    channel and endpoint and hands it to [insertConversationOutput]. *)
Lemma main_body_valid :
  main_body JSON_parse params =
    (url ← getSlackPostUrl JSON_parse params;
     insertConversationOutput JSON_parse params (base_output channel url params)).
Proof.
  unfold main_body.
  assert (validateParameters JSON_parse params = Ok ()) as ->.
  { apply validate_Ok. eauto. }
  rsimpl. rewrite getSlackChannel_valid. rsimpl.
  destruct (getSlackPostUrl JSON_parse params) as [url|e]; [rsimpl|done].
  destruct Hvalid as [Hc _ _ Hr _ _ _ _ _].
  by rewrite (get_raw_Ok _ Hr), (get_conversation_Ok _ Hc).
Qed.

(** Path 1: the platform override. *)
Lemma insertConversationOutput_override output :
  truthy (field (output_of params) "slack") = true →
  insertConversationOutput JSON_parse params output =
    Ok (VObj (delete "__proto__" (own_props (field (output_of params) "slack"))
              ∪ output)).
Proof.
  intros Hs. unfold insertConversationOutput.
  rewrite !output_field_valid. rsimpl. rewrite Hs.
  by rewrite assign_keys_union.
Qed.

(** Path 2: the generic elements. *)
Lemma insertConversationOutput_generic output :
  truthy (field (output_of params) "slack") = false →
  truthy (field (output_of params) "generic") = true →
  insertConversationOutput JSON_parse params output =
    (subs ← mapM spec_submessage (generic_elements (field (output_of params) "generic"));
     Ok (VObj (<["message" := VArr (entries subs)]>
       (set_present "ts" (spec_timestamp (event_of params) parsed) output)))).
Proof.
  intros Hs Hg. unfold insertConversationOutput.
  rewrite !output_field_valid. rsimpl. rewrite Hs.
  destruct getOriginalMessageTimestamp_valid as (ts & -> & Hts). rsimpl.
  rewrite Hg, set_present_truthy, (set_present_ext _ _ _ _ Hts).
  rewrite (forEach_message _ _ []) by apply lookup_insert_eq.
  destruct (mapM spec_submessage _) as [subs|e]; [rsimpl|done].
  by rewrite insert_insert_eq.
Qed.

(** Path 3: the plain text, for each inbound shape. *)
Lemma insertConversationOutput_text_event output :
  truthy (field (output_of params) "slack") = false →
  truthy (field (output_of params) "generic") = false →
  truthy (event_of params) = true →
  insertConversationOutput JSON_parse params output =
    (s ← join (field (output_of params) "text") " ";
     Ok (VObj (set_present "text" (VStr s)
       (set_present "ts" (spec_timestamp (event_of params) parsed) output)))).
Proof.
  intros Hs Hg He. unfold insertConversationOutput.
  rewrite !output_field_valid. rsimpl. rewrite Hs.
  destruct getOriginalMessageTimestamp_valid as (ts & -> & Hts). rsimpl.
  rewrite Hg, set_present_truthy, (set_present_ext _ _ _ _ Hts).
  rewrite (getOutputText_event He), (getAttachments_event He).
  destruct (join _ _) as [s|e]; [rsimpl|done].
  by rewrite !set_present_truthy.
Qed.

Lemma insertConversationOutput_text_payload output :
  truthy (field (output_of params) "slack") = false →
  truthy (field (output_of params) "generic") = false →
  truthy (event_of params) = false →
  insertConversationOutput JSON_parse params output =
    (s ← join (field (output_of params) "text") " ";
     Ok (VObj (<["attachments" := VArr [VObj {[ "text" := VStr s ]}]]>
       (set_present "text" (field (field parsed "original_message") "text")
         (set_present "ts" (spec_timestamp (event_of params) parsed) output))))).
Proof.
  intros Hs Hg He. unfold insertConversationOutput.
  rewrite !output_field_valid. rsimpl. rewrite Hs.
  destruct getOriginalMessageTimestamp_valid as (ts & -> & Hts). rsimpl.
  rewrite Hg, set_present_truthy, (set_present_ext _ _ _ _ Hts).
  destruct (getOutputText_payload He) as (text & -> & Htext). rsimpl.
  rewrite (getAttachments_payload He).
  destruct (join _ _) as [s|e]; [rsimpl|done].
  by rewrite !set_present_truthy, (set_present_ext _ _ _ _ Htext).
Qed.

End Validated.

(** ** The promise, valid inputs and the shape of a result *)

Lemma main_eq JSON_parse params :
  main JSON_parse params =
    Return (match main_body JSON_parse params with
            | Ok out => Fulfilled out
            | Err e => Rejected e
            end).
Proof.
  unfold main, new_Promise. by destruct (main_body JSON_parse params).
Qed.

Lemma main_body_invalid JSON_parse params e :
  validateParameters JSON_parse params = Err e →
  main_body JSON_parse params = Err e.
Proof. unfold main_body. by intros ->. Qed.

Lemma valid_input_view JSON_parse params channel url :
  valid_input JSON_parse params channel url →
  ∃ parsed, valid_view JSON_parse params parsed channel
            ∧ url = spec_url (payload_of params) parsed.
Proof.
  intros (Hv & Hch & Hurl).
  apply validate_Ok in Hv as (parsed & channel' & Hvalid).
  rewrite (getSlackChannel_valid _ _ _ _ Hvalid) in Hch.
  injection Hch as ->. exists parsed. split; [done|].
  by apply (getSlackPostUrl_Ok _ _ _ _ Hvalid).
Qed.

(** With a single inbound shape a validated input is valid. *)
Lemma valid_single_shape JSON_parse params :
  validateParameters JSON_parse params = Ok () →
  truthy (event_of params) = false ∨ truthy (payload_of params) = false →
  ∃ channel url, valid_input JSON_parse params channel url.
Proof.
  intros Hv Hshape.
  pose proof Hv as (parsed & channel & Hvalid)%validate_Ok.
  exists channel, (spec_url (payload_of params) parsed).
  split; [done|]. split.
  - by apply (getSlackChannel_valid _ _ _ _ Hvalid).
  - by apply (getSlackPostUrl_single_shape _ _ _ _ Hvalid).
Qed.

Lemma main_valid JSON_parse params channel url :
  valid_input JSON_parse params channel url →
  main JSON_parse params =
    Return (match insertConversationOutput JSON_parse params
                    (base_output channel url params) with
            | Ok out => Fulfilled out
            | Err e => Rejected e
            end).
Proof.
  intros Hin. pose proof Hin as (parsed & Hvalid & _)%valid_input_view.
  destruct Hin as (_ & _ & Hurl).
  by rewrite main_eq, (main_body_valid _ _ _ _ Hvalid), Hurl.
Qed.

(** The parsed payload of a validated input is what the reader returns on
    the payload field. *)
Lemma parsed_unique JSON_parse params parsed channel parsed' :
  valid_view JSON_parse params parsed channel →
  truthy (payload_of params) = true →
  js_JSON_parse JSON_parse (payload_of params) = Ok parsed' →
  parsed = parsed'.
Proof.
  intros [_ _ _ _ _ _ [[_ Hp]|[_ Hp]] _ _] Ht Hparse; congruence.
Qed.

Lemma base_output_lookup channel url params k :
  k ≠ "channel" → k ≠ "url" → k ≠ "raw_input_data" → k ≠ "raw_output_data" →
  base_output channel url params !! k = None.
Proof.
  intros. unfold base_output.
  by rewrite !lookup_insert_ne, lookup_singleton_ne.
Qed.

Lemma base_output_channel channel url params :
  base_output channel url params !! "channel" = Some channel.
Proof. apply lookup_insert_eq. Qed.

Lemma base_output_url channel url params :
  base_output channel url params !! "url" = Some url.
Proof. unfold base_output. rewrite lookup_insert_ne by done. apply lookup_insert_eq. Qed.

Lemma set_present_lookup k v (m : gmap string value) :
  set_present k v m !! k = match present v with Some x => Some x | None => m !! k end.
Proof.
  unfold set_present. destruct (present v); [|done]. apply lookup_insert_eq.
Qed.

Lemma set_present_lookup_ne k k' v (m : gmap string value) :
  k ≠ k' → set_present k v m !! k' = m !! k'.
Proof.
  intros. unfold set_present. destruct (present v); [|done].
  by apply lookup_insert_ne.
Qed.

Lemma mapM_Forall_result {A B} (f : A → result B) (P : B → Prop) l : ∀ k,
  (∀ x y, f x = Ok y → P y) → mapM f l = Ok k → Forall P k.
Proof.
  induction l as [|x l IH]; intros k Hf.
  - intros [= <-]. constructor.
  - rewrite mapM_cons_result. intros (y & Hy & H)%bind_Ok.
    apply bind_Ok in H as (k' & Hk' & [= <-]).
    constructor; [by eapply Hf|by apply IH].
Qed.

Lemma spec_option_value_Ok v r :
  spec_option_value v = Ok r →
  ∃ s, r = VStr s
       ∧ (v = VStr s
          ∨ instanceof_Object v = true ∧ s ≠ ""
            ∧ field (field v "input") "text" = VStr s).
Proof.
  unfold spec_option_value.
  destruct v as [| |b|n|s|l|o]; try discriminate.
  - intros [= <-]. eauto.
  - destruct (field (field (VArr l) "input") "text") as [| |b|n|s|l'|o];
      try discriminate.
    destruct (String.eqb_spec s ""); [discriminate|].
    intros [= <-]. exists s. eauto.
  - destruct (field (field (VObj o) "input") "text") as [| |b|n|s|l'|o'];
      try discriminate.
    destruct (String.eqb_spec s ""); [discriminate|].
    intros [= <-]. exists s. eauto.
Qed.

(** Every result of [insertConversationOutput] on a validated input comes
    from exactly one of its paths. *)
Lemma insertConversationOutput_cases JSON_parse params parsed channel
    (output out : gmap string value) :
  valid_view JSON_parse params parsed channel →
  insertConversationOutput JSON_parse params output = Ok (VObj out) →
  (truthy (field (output_of params) "slack") = true
   ∧ out = delete "__proto__" (own_props (field (output_of params) "slack"))
             ∪ output)
  ∨ (truthy (field (output_of params) "slack") = false
     ∧ truthy (field (output_of params) "generic") = true
     ∧ ∃ subs,
         mapM spec_submessage
           (generic_elements (field (output_of params) "generic")) = Ok subs
         ∧ out = <["message" := VArr (entries subs)]>
             (set_present "ts" (spec_timestamp (event_of params) parsed) output))
  ∨ (truthy (field (output_of params) "slack") = false
     ∧ truthy (field (output_of params) "generic") = false
     ∧ truthy (event_of params) = true
     ∧ ∃ s, join (field (output_of params) "text") " " = Ok s
         ∧ out = set_present "text" (VStr s)
             (set_present "ts" (spec_timestamp (event_of params) parsed) output))
  ∨ (truthy (field (output_of params) "slack") = false
     ∧ truthy (field (output_of params) "generic") = false
     ∧ truthy (event_of params) = false
     ∧ ∃ s, join (field (output_of params) "text") " " = Ok s
         ∧ out = <["attachments" := VArr [VObj {[ "text" := VStr s ]}]]>
             (set_present "text" (field (field parsed "original_message") "text")
               (set_present "ts" (spec_timestamp (event_of params) parsed) output))).
Proof.
  intros Hvalid Hout.
  destruct (truthy (field (output_of params) "slack")) eqn:Hs.
  { left. rewrite (insertConversationOutput_override _ _ _ _ Hvalid) in Hout
      by done.
    by injection Hout as <-. }
  right.
  destruct (truthy (field (output_of params) "generic")) eqn:Hg.
  { left. rewrite (insertConversationOutput_generic _ _ _ _ Hvalid) in Hout
      by done.
    apply bind_Ok in Hout as (subs & Hsubs & [= <-]). eauto. }
  right.
  destruct (truthy (event_of params)) eqn:He.
  - left. rewrite (insertConversationOutput_text_event _ _ _ _ Hvalid) in Hout
      by done.
    apply bind_Ok in Hout as (s & Hjoin & [= <-]). eauto 6.
  - right. rewrite (insertConversationOutput_text_payload _ _ _ _ Hvalid) in Hout
      by done.
    apply bind_Ok in Hout as (s & Hjoin & [= <-]). eauto 6.
Qed.

Lemma main_fulfilled JSON_parse params channel url out :
  valid_input JSON_parse params channel url →
  main JSON_parse params = Return (Fulfilled out) →
  insertConversationOutput JSON_parse params (base_output channel url params)
    = Ok out.
Proof.
  intros Hin. rewrite (main_valid _ _ _ _ Hin).
  destruct (insertConversationOutput _ _ _); congruence.
Qed.

(** The keys the paths of [insertConversationOutput] may add. *)
Lemma result_frame JSON_parse params parsed channel (output out : gmap string value) k :
  valid_view JSON_parse params parsed channel →
  insertConversationOutput JSON_parse params output = Ok (VObj out) →
  k ∉ ["ts"; "message"; "text"; "attachments"] →
  truthy (field (output_of params) "slack") = false
    ∨ own_props (field (output_of params) "slack") !! k = None →
  out !! k = output !! k.
Proof.
  intros Hvalid Hout Hk Hover.
  assert (k ≠ "ts" ∧ k ≠ "message" ∧ k ≠ "text" ∧ k ≠ "attachments")
    as (? & ? & ? & ?).
  { rewrite !not_elem_of_cons in Hk. by destruct Hk as (? & ? & ? & ? & _). }
  destruct (insertConversationOutput_cases _ _ _ _ _ _ Hvalid Hout)
    as [(Hs & ->)|[(_ & _ & subs & _ & ->)|[(_ & _ & _ & s & _ & ->)
        |(_ & _ & _ & s & _ & ->)]]].
  - destruct Hover as [?|Hnone]; [congruence|]. by apply lookup_not_copied.
  - by rewrite lookup_insert_ne, set_present_lookup_ne.
  - by rewrite !set_present_lookup_ne.
  - by rewrite lookup_insert_ne, !set_present_lookup_ne.
Qed.

(** The plain-text body on a valid input, for both inbound cases. *)
Lemma main_plain_text JSON_parse params channel url parsed s :
  valid_input JSON_parse params channel url →
  valid_view JSON_parse params parsed channel →
  truthy (field (output_of params) "slack") = false →
  truthy (field (output_of params) "generic") = false →
  join (field (output_of params) "text") " " = Ok s →
  ∃ out, main JSON_parse params = Return (Fulfilled (VObj out))
    ∧ out !! "channel" = Some channel
    ∧ out !! "url" = Some url
    ∧ out !! "ts" = present (spec_timestamp (event_of params) parsed)
    ∧ (truthy (event_of params) = true →
         out !! "text" = present (VStr s) ∧ out !! "attachments" = None)
    ∧ (truthy (event_of params) = false →
         out !! "text" = present (field (field parsed "original_message") "text")
         ∧ out !! "attachments" = Some (VArr [VObj {[ "text" := VStr s ]}])).
Proof.
  intros Hin Hvalid Hs Hg Hj. rewrite (main_valid _ _ _ _ Hin).
  assert (Hpresent : ∀ k v (m : gmap string value),
    m !! k = None → set_present k v m !! k = present v).
  { intros k v m Hm. rewrite set_present_lookup, Hm. by destruct (present v). }
  destruct (truthy (event_of params)) eqn:He.
  - rewrite (insertConversationOutput_text_event _ _ _ _ Hvalid), Hj by done.
    rsimpl. eexists. split; [done|].
    split; [|split; [|split; [|split]]]; try congruence.
    + rewrite !set_present_lookup_ne by done. apply base_output_channel.
    + rewrite !set_present_lookup_ne by done. apply base_output_url.
    + rewrite set_present_lookup_ne by done.
      by apply Hpresent, base_output_lookup.
    + intros _. split.
      * apply Hpresent. rewrite set_present_lookup_ne by done.
        by apply base_output_lookup.
      * rewrite !set_present_lookup_ne by done. by apply base_output_lookup.
  - rewrite (insertConversationOutput_text_payload _ _ _ _ Hvalid), Hj by done.
    rsimpl. eexists. split; [done|].
    split; [|split; [|split; [|split]]]; try congruence.
    + rewrite lookup_insert_ne, !set_present_lookup_ne by done.
      apply base_output_channel.
    + rewrite lookup_insert_ne, !set_present_lookup_ne by done.
      apply base_output_url.
    + rewrite lookup_insert_ne, set_present_lookup_ne by done.
      by apply Hpresent, base_output_lookup.
    + intros _. split.
      * rewrite lookup_insert_ne by done.
        apply Hpresent. rewrite set_present_lookup_ne by done.
        by apply base_output_lookup.
      * apply lookup_insert_eq.
Qed.

(** ** Running the action *)

Example read_payload_text :
  parse_json payload_text
    = Some (obj [("channel", obj [("id", VStr "C1")]);
                 ("original_message", obj [("ts", VStr "123"); ("text", VStr "orig")])]).
Proof. vm_compute. reflexivity. Qed.

Example run_text_input :
  main parse_json text_input = Return (Fulfilled (VObj text_result)).
Proof. vm_compute. reflexivity. Qed.

Example run_single_text_element :
  ∃ out, main parse_json (with_output event_data [("generic", text_element)])
           = Return (Fulfilled (VObj out))
    ∧ out !! "message" = Some (VArr [obj [("text", VStr "hi")]]).
Proof. eexists. split; vm_compute; reflexivity. Qed.

Example table_audio :
  spec_submessage audio_element
    = Ok (Some (obj [("text", VStr "<S|T>"); ("unfurl_links", VBool true);
                     ("unfurl_media", VBool true)])).
Proof. vm_compute. reflexivity. Qed.

Example table_pause : spec_submessage pause_element = Ok (Some pause_element).
Proof. vm_compute. reflexivity. Qed.

Example table_unknown : spec_submessage unknown_element = Ok None.
Proof. vm_compute. reflexivity. Qed.

Example run_bad_option :
  main parse_json bad_option_input = Return (Rejected (AssertionError None)).
Proof. vm_compute. reflexivity. Qed.

Example run_unparseable :
  main parse_json unparseable_input = Return (Rejected SyntaxError).
Proof. vm_compute. reflexivity. Qed.

Example run_no_channel :
  main parse_json no_channel_input
    = Return (Rejected (AssertionError (Some "No Slack channel found in raw data."))).
Proof. vm_compute. reflexivity. Qed.

(** With an event the channel check does not look into the parsed
    payload, so validation passes here; resolving the endpoint then reads
    [response_url] off [null]. *)
Example run_null_payload :
  validateParameters parse_json null_payload_input = Ok ()
  ∧ getSlackPostUrl parse_json null_payload_input = Err TypeError
  ∧ main parse_json null_payload_input = Return (Rejected TypeError).
Proof. repeat split; vm_compute; reflexivity. Qed.

(** * The properties of the specification *)

(** ** The promise returned by [main] *)

(** C1 (as stated, refuted).  The specification says that [main] never
    rejects and that a validation failure is raised synchronously.  On the
    empty parameter object validation fails, yet the call returns normally
    and the promise it returns is rejected with the assertion error: the
    promise constructor catches what its executor throws. *)
Lemma main_rejects_instead_of_raising :
  validateParameters parse_json (VObj ∅)
    = Err (AssertionError (Some "No conversation output."))
  ∧ main parse_json (VObj ∅)
    = Return (Rejected (AssertionError (Some "No conversation output.")))
  ∧ ¬ never_rejects (main parse_json (VObj ∅))
  ∧ ¬ raises_synchronously (main parse_json (VObj ∅)).
Proof.
  assert (Hm : main parse_json (VObj ∅)
    = Return (Rejected (AssertionError (Some "No conversation output.")))).
  { by vm_compute. }
  split; [|split; [|split]].
  - by vm_compute.
  - exact Hm.
  - intros H. by eapply H.
  - intros [e He]. rewrite Hm in He. discriminate.
Qed.

(** C1 (amended).  For every input the call of [main] returns (it never
    throws to its caller) a promise that is settled exactly once, at
    construction: fulfilled with the output when validation and
    construction succeed, rejected with the error thrown otherwise, and
    later attempts to settle it change nothing.  For every input failing
    validation, or holding a payload that is not JSON text, the promise is
    rejected with that failure and no output is constructed. *)
Theorem main_settles_once JSON_parse params :
  ∃ p, main JSON_parse params = Return p
     ∧ ¬ raises_synchronously (main JSON_parse params)
     ∧ p ≠ Pending
     ∧ (∀ v, p = Fulfilled v ↔ main_body JSON_parse params = Ok v)
     ∧ (∀ e, p = Rejected e ↔ main_body JSON_parse params = Err e)
     ∧ (∀ v e, resolve v p = p ∧ reject e p = p)
     ∧ (∀ e, validateParameters JSON_parse params = Err e → p = Rejected e)
     ∧ (∀ e, truthy (conversation_of params) = true →
             truthy (output_of params) = true →
             truthy (field (output_of params) "slack")
               || truthy (field (output_of params) "generic")
               || truthy (field (output_of params) "text") = true →
             truthy (raw_of params) = true →
             truthy (slack_of params) = true →
             truthy (field (raw_of params) "conversation") = true →
             truthy (payload_of params) = true →
             js_JSON_parse JSON_parse (payload_of params) = Err e →
             p = Rejected e).
Proof.
  rewrite main_eq. eexists. split; [reflexivity|].
  split; [by intros [e He]|].
  destruct (main_body JSON_parse params) as [out|e] eqn:Hb.
  - repeat split; try done; try congruence.
    + intros e He. apply main_body_invalid in He. congruence.
    + intros e ? ? ? ? ? ? ? He.
      rewrite (main_body_invalid _ _ e) in Hb; [discriminate|].
      by apply validate_unparseable.
  - repeat split; try done; try congruence.
    + intros e' He. apply main_body_invalid in He. congruence.
    + intros e' ? ? ? ? ? ? ? He.
      rewrite (main_body_invalid _ _ e') in Hb; [congruence|].
      by apply validate_unparseable.
Qed.

(** ** Validation failures *)

(** C2.  An input that lacks the conversation object, or its [output], or
    all of [slack], [generic] and [text] in that output, or the raw input
    data, or its [slack] or [conversation] part, or for which no
    destination channel resolves, fails validation: [validateParameters]
    throws, the promise is rejected with what it throws and no output is
    built. *)
Theorem validation_failures JSON_parse params :
  truthy (conversation_of params) = false
  ∨ truthy (output_of params) = false
  ∨ (truthy (field (output_of params) "slack") = false
     ∧ truthy (field (output_of params) "generic") = false
     ∧ truthy (field (output_of params) "text") = false)
  ∨ truthy (raw_of params) = false
  ∨ truthy (slack_of params) = false
  ∨ truthy (field (raw_of params) "conversation") = false
  ∨ (∀ channel, getSlackChannel JSON_parse params = Ok channel →
                truthy channel = false) →
  ∃ e, validateParameters JSON_parse params = Err e
       ∧ main_body JSON_parse params = Err e
       ∧ main JSON_parse params = Return (Rejected e).
Proof.
  intros Hmissing.
  destruct (validateParameters JSON_parse params) as [[]|e] eqn:Hv.
  - exfalso. apply validate_Ok in Hv as (parsed & channel & Hvalid).
    pose proof (getSlackChannel_valid _ _ _ _ Hvalid) as Hch.
    destruct Hvalid as [Hc Ho Hct Hr Hs Hci Hp _ Hcht].
    destruct Hmissing as [H|[H|[(H1 & H2 & H3)|[H|[H|[H|H]]]]]]; try congruence.
    + by rewrite H1, H2, H3 in Hct.
    + apply H in Hch. congruence.
  - exists e. split; [done|].
    rewrite main_eq, (main_body_invalid _ _ _ Hv). done.
Qed.

Lemma validation_failures_witness :
  ∃ e, validateParameters parse_json (VObj ∅) = Err e
       ∧ main_body parse_json (VObj ∅) = Err e
       ∧ main parse_json (VObj ∅) = Return (Rejected e).
Proof.
  apply (validation_failures parse_json (VObj ∅)).
  left. reflexivity.
Defined.

(** ** The platform override *)




(** ** The generic elements *)



(** ** The plain-text fallback *)

(** C5 (as stated, refuted).  On the payload-shape input of the
    specification ([output.text = ["a","b"]],
    [original_message = {ts:"123", text:"orig"}]) the result has [ts] and
    [text] from the original message, but its [attachments] wrap the joined
    output text ["a b"], not the original text.  And on an event-shape input
    whose text list joins to the empty string the result has no [text]
    field. *)
Lemma payload_attachments_wrap_output_text :
  (∃ out, main parse_json payload_input = Return (Fulfilled (VObj out))
     ∧ out !! "ts" = Some (VStr "123")
     ∧ out !! "text" = Some (VStr "orig")
     ∧ out !! "attachments" = Some (VArr [obj [("text", VStr "a b")]])
     ∧ out !! "attachments" ≠ Some (VArr [obj [("text", VStr "orig")]]))
  ∧ (∃ out, main parse_json empty_text_input = Return (Fulfilled (VObj out))
     ∧ join (field (output_of empty_text_input) "text") " " = Ok ""
     ∧ out !! "text" = None).
Proof.
  split.
  - eexists. split; [vm_compute; reflexivity|].
    vm_compute. repeat split. discriminate.
  - eexists. split; [vm_compute; reflexivity|].
    vm_compute. by split.
Qed.

(** C5 (amended).  On a valid input taking the plain-text fallback, [s]
    being the text list of the conversation output joined with single
    spaces: without an event (payload shape) the result has [ts] and [text]
    from the [original_message] of the parsed payload when they are there,
    and its [attachments] is the one-element list [[{text: s}]]; with an
    event the result has [text] equal to [s] when [s] is not empty, and no
    [attachments]. *)
Theorem plain_text_fallback JSON_parse params channel url s :
  valid_input JSON_parse params channel url →
  truthy (field (output_of params) "slack") = false →
  truthy (field (output_of params) "generic") = false →
  join (field (output_of params) "text") " " = Ok s →
  ∃ out, main JSON_parse params = Return (Fulfilled (VObj out))
    ∧ (truthy (event_of params) = false →
       ∀ parsed, js_JSON_parse JSON_parse (payload_of params) = Ok parsed →
       out !! "ts" = present (field (field parsed "original_message") "ts")
       ∧ out !! "text" = present (field (field parsed "original_message") "text")
       ∧ out !! "attachments" = Some (VArr [VObj {[ "text" := VStr s ]}]))
    ∧ (truthy (event_of params) = true →
       out !! "text" = present (VStr s) ∧ out !! "attachments" = None).
Proof.
  intros Hin Hs Hg Hj.
  pose proof Hin as (parsed & Hvalid & _)%valid_input_view.
  destruct (main_plain_text _ _ _ _ _ _ Hin Hvalid Hs Hg Hj)
    as (out & Hmain & _ & _ & Hts & Hevent & Hpayload).
  exists out. split; [done|]. split; [|done].
  intros He parsed' Hparse.
  rewrite <- (parsed_unique _ _ _ _ _ Hvalid
                (payload_truthy _ _ _ _ Hvalid He) Hparse).
  destruct (Hpayload He) as (Htext & Hatt).
  unfold spec_timestamp in Hts. by rewrite He in Hts.
Qed.

Lemma plain_text_fallback_witness :
  ∃ out, main parse_json payload_input = Return (Fulfilled (VObj out))
    ∧ out !! "ts" = Some (VStr "123")
    ∧ out !! "text" = Some (VStr "orig")
    ∧ out !! "attachments" = Some (VArr [VObj {[ "text" := VStr "a b" ]}]).
Proof.
  destruct (plain_text_fallback parse_json payload_input
              (VStr "C1") (VStr urlChatUpdate) "a b")
    as (out & Hmain & Hpayload & _).
  - split; [|split]; vm_compute; reflexivity.
  - reflexivity.
  - reflexivity.
  - vm_compute; reflexivity.
  - exists out. split; [exact Hmain|].
    refine (Hpayload _ (obj [("channel", obj [("id", VStr "C1")]);
      ("original_message", obj [("ts", VStr "123"); ("text", VStr "orig")])]) _).
    + reflexivity.
    + vm_compute; reflexivity.
Defined.

(** ** Option values *)

(** C6.  A string value passes through unchanged; a structured value
    (object or array) is accepted exactly when [input.text] is a non-empty
    string, which becomes the value; every other value fails the
    assertion.  Hence whatever [getNormalizedOptionsValue] returns is a
    string, each button is [{name: label, type: "button", text: label,
    value}] with a string [value], and the buttons of an option element
    are made from its options in order. *)
Theorem option_value_normalization (v : value) :
  (∀ s, v = VStr s → getNormalizedOptionsValue v = Ok (VStr s))
  ∧ (instanceof_Object v = true →
     ∀ r, getNormalizedOptionsValue v = Ok r ↔
          ∃ s, s ≠ "" ∧ field (field v "input") "text" = VStr s ∧ r = VStr s)
  ∧ (instanceof_Object v = false → (∀ s, v ≠ VStr s) →
     getNormalizedOptionsValue v = Err (AssertionError None))
  ∧ (∀ r, getNormalizedOptionsValue v = Ok r → ∃ s, r = VStr s)
  ∧ (∀ e, getNormalizedOptionsValue v = Err e → e = AssertionError None)
  ∧ (∀ optionObj button, field optionObj "value" = v →
       option_button optionObj = Ok button →
       ∃ s, getNormalizedOptionsValue v = Ok (VStr s)
            ∧ button = VObj (list_to_map
                [("name", field optionObj "label"); ("type", VStr "button");
                 ("text", field optionObj "label"); ("value", VStr s)]))
  ∧ (∀ element out, generateSlackOptionsData element = Ok out →
       ∃ buttons,
         array_map option_button (field element "options") = Ok buttons
         ∧ Forall (λ b, ∃ s, field b "value" = VStr s) buttons
         ∧ field (field out "attachments") "0"
           = VObj (list_to_map [("text", field element "title");
                                ("callback_id", field element "title");
                                ("actions", VArr buttons)])).
Proof.
  rewrite getNormalizedOptionsValue_spec.
  split; [|split; [|split; [|split; [|split; [|split]]]]].
  - by intros s ->.
  - intros Hobj r. split.
    + intros (s & -> & [->|(_ & Hs & Ht)])%spec_option_value_Ok; [done|eauto].
    + intros (s & Hs & Ht & ->). unfold spec_option_value.
      destruct v; try done; rewrite Ht;
        by destruct (String.eqb_spec s "").
  - intros Hobj Hstr. destruct v; try done. by destruct (Hstr s).
  - intros r (s & -> & _)%spec_option_value_Ok. eauto.
  - intros e. unfold spec_option_value.
    destruct v as [| |b|n|s|l|o]; try congruence.
    + destruct (field (field (VArr l) "input") "text"); try congruence.
      destruct (String.eqb _ _); congruence.
    + destruct (field (field (VObj o) "input") "text"); try congruence.
      destruct (String.eqb _ _); congruence.
  - intros optionObj button Hv. rewrite option_button_spec.
    unfold spec_button.
    intros (label & Hl & H)%bind_Ok.
    apply bind_Ok in H as (v' & Hv' & H).
    apply bind_Ok in H as (nv & Hnv & [= <-]).
    apply get_Ok in Hl as ->. apply get_Ok in Hv' as ->. rewrite Hv in Hnv.
    destruct (spec_option_value_Ok _ _ Hnv) as (s & -> & _). eauto.
  - intros element out. unfold generateSlackOptionsData.
    intros (options & Ho & H)%bind_Ok.
    apply bind_Ok in H as (buttons & Hb & H).
    apply bind_Ok in H as (text & Ht & H).
    apply bind_Ok in H as (callback_id & Hc & [= <-]).
    apply get_Ok in Ho as ->. apply get_Ok in Ht as ->. apply get_Ok in Hc as ->.
    exists buttons. split; [done|]. split; [|done].
    destruct (field element "options") as [| |b|n|s|l|o]; try discriminate.
    cbn in Hb. revert Hb. apply mapM_Forall_result.
    intros x y. rewrite option_button_spec. unfold spec_button.
    intros (label & Hl & H)%bind_Ok.
    apply bind_Ok in H as (v' & Hv' & H).
    apply bind_Ok in H as (nv & Hnv & [= <-]).
    destruct (spec_option_value_Ok _ _ Hnv) as (s & -> & _). by exists s.
Qed.

(** ** The previous-message timestamp *)

(** C7.  On a valid input that takes the generic or the plain-text path,
    the [ts] of the result is the previous-message timestamp when it is
    there, and the result has no [ts] field otherwise: with an event, the
    nested [event.message.ts] if present, else [event.ts]; without an
    event, [original_message.ts] of the parsed payload. *)
Theorem previous_message_timestamp JSON_parse params channel url
    (out : gmap string value) :
  valid_input JSON_parse params channel url →
  truthy (field (output_of params) "slack") = false →
  main JSON_parse params = Return (Fulfilled (VObj out)) →
  (truthy (event_of params) = true →
     out !! "ts" =
       present (match present (field (field (event_of params) "message") "ts") with
                | Some ts => ts
                | None => field (event_of params) "ts"
                end))
  ∧ (truthy (event_of params) = false →
     ∀ parsed, js_JSON_parse JSON_parse (payload_of params) = Ok parsed →
     out !! "ts" = present (field (field parsed "original_message") "ts")).
Proof.
  intros Hin Hs Hmain.
  pose proof Hin as (parsed & Hvalid & _)%valid_input_view.
  apply (main_fulfilled _ _ _ _ _ Hin) in Hmain.
  assert (Hts : out !! "ts" = present (spec_timestamp (event_of params) parsed)).
  { destruct (insertConversationOutput_cases _ _ _ _ _ _ Hvalid Hmain)
      as [(? & _)|[(_ & _ & subs & _ & ->)|[(_ & _ & _ & s & _ & ->)
          |(_ & _ & _ & s & _ & ->)]]]; [congruence|..].
    all: rewrite ?lookup_insert_ne, ?(set_present_lookup_ne "text") by done.
    all: rewrite set_present_lookup, base_output_lookup by done.
    all: by destruct (present _). }
  split.
  - intros He. by rewrite Hts; unfold spec_timestamp; rewrite He.
  - intros He parsed' Hparse.
    rewrite <- (parsed_unique _ _ _ _ _ Hvalid
                  (payload_truthy _ _ _ _ Hvalid He) Hparse).
    by rewrite Hts; unfold spec_timestamp; rewrite He.
Qed.

Lemma previous_message_timestamp_witness :
  text_result !! "ts" = Some (VStr "1.5").
Proof.
  refine (proj1 (previous_message_timestamp parse_json text_input
            (VStr "D024BE7RE") (VStr urlChatPost) text_result _ _ _) _).
  - split; [|split]; vm_compute; reflexivity.
  - reflexivity.
  - vm_compute; reflexivity.
  - reflexivity.
Defined.

(** ** Endpoint and channel *)

(** C8 (as stated, refuted).  The specification says that the [url] of
    every result is one of the two Slack endpoints or the [response_url] of
    the payload, and that the [channel] of an event-shape result is
    [event.channel].  On an event-shape input whose [slack] override
    defines [url] and [channel], the result carries the values of the
    override. *)
Lemma override_redirects_endpoint :
  truthy (event_of redirect_input) = true
  ∧ truthy (payload_of redirect_input) = false
  ∧ ∃ out, main parse_json redirect_input = Return (Fulfilled (VObj out))
      ∧ out !! "url" = Some (VStr "https://example.org/hook")
      ∧ out !! "url" ≠ Some (VStr urlChatPost)
      ∧ out !! "url" ≠ Some (VStr urlChatUpdate)
      ∧ out !! "channel" = Some (VStr "elsewhere")
      ∧ out !! "channel" ≠ Some (field (event_of redirect_input) "channel").
Proof.
  split; [reflexivity|]. split; [reflexivity|].
  eexists. split; [vm_compute; reflexivity|].
  vm_compute. repeat split; discriminate.
Qed.

(** C8 (amended).  On a valid input the resolved endpoint is the
    post-new-message endpoint for the event shape (an event, no payload),
    and for the payload shape (no event) the [response_url] of the parsed
    payload if present, else the update endpoint; the resolved channel is
    [event.channel] for the event shape and [channel.id] of the parsed
    payload for the payload shape.  The result carries the resolved
    endpoint as [url] and the resolved channel as [channel] unless the
    [slack] override defines that key, in which case it carries the value
    of the override. *)
Theorem endpoint_and_channel JSON_parse params channel url
    (out : gmap string value) :
  valid_input JSON_parse params channel url →
  main JSON_parse params = Return (Fulfilled (VObj out)) →
  (truthy (event_of params) = true → truthy (payload_of params) = false →
     url = VStr urlChatPost ∧ channel = field (event_of params) "channel")
  ∧ (truthy (event_of params) = false →
     ∀ parsed, js_JSON_parse JSON_parse (payload_of params) = Ok parsed →
     url = match present (field parsed "response_url") with
           | Some response_url => response_url
           | None => VStr urlChatUpdate
           end
     ∧ channel = field (field parsed "channel") "id")
  ∧ (truthy (field (output_of params) "slack") = false
       ∨ own_props (field (output_of params) "slack") !! "url" = None →
     out !! "url" = Some url)
  ∧ (truthy (field (output_of params) "slack") = false
       ∨ own_props (field (output_of params) "slack") !! "channel" = None →
     out !! "channel" = Some channel)
  ∧ (truthy (field (output_of params) "slack") = true →
     ∀ v, own_props (field (output_of params) "slack") !! "url" = Some v →
          out !! "url" = Some v)
  ∧ (truthy (field (output_of params) "slack") = true →
     ∀ v, own_props (field (output_of params) "slack") !! "channel" = Some v →
          out !! "channel" = Some v).
Proof.
  intros Hin Hmain.
  pose proof Hin as (parsed & Hvalid & ->)%valid_input_view.
  apply (main_fulfilled _ _ _ _ _ Hin) in Hmain.
  pose proof (channel_valid _ _ _ _ Hvalid) as Hch.
  assert (Hoverride : truthy (field (output_of params) "slack") = true →
    ∀ k v, k ≠ "__proto__" →
      own_props (field (output_of params) "slack") !! k = Some v →
      out !! k = Some v).
  { intros Hs k v Hk Hv.
    destruct (insertConversationOutput_cases _ _ _ _ _ _ Hvalid Hmain)
      as [(_ & ->)|[(? & _)|[(? & _)|(? & _)]]]; try congruence.
    rewrite lookup_copied, Hv; eauto. }
  split; [|split; [|split; [|split; [|split]]]];
    [| | | |by intros Hs v; apply Hoverride|by intros Hs v; apply Hoverride].
  - intros He Hp. unfold spec_url, spec_channel in *. by rewrite Hp, He in *.
  - intros He parsed' Hparse.
    pose proof (payload_truthy _ _ _ _ Hvalid He) as Hp.
    rewrite <- (parsed_unique _ _ _ _ _ Hvalid Hp Hparse).
    unfold spec_url, spec_channel in *. by rewrite Hp, He in *.
  - intros Hover.
    rewrite (result_frame _ _ _ _ _ _ "url" Hvalid Hmain); [done| |done].
    rewrite !not_elem_of_cons. repeat split; try done. apply not_elem_of_nil.
  - intros Hover.
    rewrite (result_frame _ _ _ _ _ _ "channel" Hvalid Hmain); [done| |done].
    rewrite !not_elem_of_cons. repeat split; try done. apply not_elem_of_nil.
Qed.

Lemma endpoint_and_channel_witness :
  text_result !! "url" = Some (VStr urlChatPost)
  ∧ text_result !! "channel" = Some (VStr "D024BE7RE").
Proof.
  pose proof (endpoint_and_channel parse_json text_input
                (VStr "D024BE7RE") (VStr urlChatPost) text_result) as H.
  destruct H as (_ & _ & Hurl & Hchannel & _).
  - split; [|split]; vm_compute; reflexivity.
  - vm_compute; reflexivity.
  - split; [apply Hurl|apply Hchannel]; left; reflexivity.
Defined.

(** ** One body per result *)

(** C9 (as stated, refuted).  The specification says that a result never
    mixes a message list with a text/attachments body.  The override path
    copies whatever the override holds: on a valid input whose override
    carries [message], [text] and [attachments], the result has all
    three. *)
Lemma override_mixes_bodies :
  truthy (field (output_of mixing_override_input) "slack") = true
  ∧ ∃ out, main parse_json mixing_override_input = Return (Fulfilled (VObj out))
      ∧ out !! "message" = Some (VArr [obj [("text", VStr "m")]])
      ∧ out !! "text" = Some (VStr "t")
      ∧ out !! "attachments" = Some (VArr [obj [("text", VStr "a")]]).
Proof.
  split; [reflexivity|].
  eexists. split; [vm_compute; reflexivity|].
  repeat split.
Qed.

(** C9 (amended).  A result is built on exactly one path, chosen by
    priority.  With a [slack] override it is the base output overlaid with
    the override and nothing else: it has [message], [text], [attachments]
    and [ts] exactly as the override defines them.  Otherwise, with a
    [generic] field, it has the [message] list and neither [text] nor
    [attachments].  Otherwise it has the plain-text body and no
    [message]. *)
Theorem one_output_shape JSON_parse params channel url
    (out : gmap string value) :
  valid_input JSON_parse params channel url →
  main JSON_parse params = Return (Fulfilled (VObj out)) →
  (truthy (field (output_of params) "slack") = true →
     out = delete "__proto__" (own_props (field (output_of params) "slack"))
             ∪ base_output channel url params
     ∧ ∀ k, k ∈ ["message"; "text"; "attachments"; "ts"] →
            out !! k = own_props (field (output_of params) "slack") !! k)
  ∧ (truthy (field (output_of params) "slack") = false →
     truthy (field (output_of params) "generic") = true →
     (∃ subs,
        mapM spec_submessage
          (generic_elements (field (output_of params) "generic")) = Ok subs
        ∧ out !! "message" = Some (VArr (entries subs)))
     ∧ out !! "text" = None
     ∧ out !! "attachments" = None)
  ∧ (truthy (field (output_of params) "slack") = false →
     truthy (field (output_of params) "generic") = false →
     out !! "message" = None
     ∧ ∃ s, join (field (output_of params) "text") " " = Ok s
         ∧ (truthy (event_of params) = true →
              out !! "text" = present (VStr s) ∧ out !! "attachments" = None)
         ∧ (truthy (event_of params) = false →
              out !! "attachments" = Some (VArr [VObj {[ "text" := VStr s ]}]))).
Proof.
  intros Hin Hmain.
  pose proof Hin as (parsed & Hvalid & _)%valid_input_view.
  apply (main_fulfilled _ _ _ _ _ Hin) in Hmain.
  destruct (insertConversationOutput_cases _ _ _ _ _ _ Hvalid Hmain)
    as [(Hs & ->)|[(Hs & Hg & subs & Hsubs & ->)|[(Hs & Hg & He & s & Hj & ->)
        |(Hs & Hg & He & s & Hj & ->)]]].
  all: split; [|split]; try congruence.
  - intros _. split; [done|]. intros k Hk.
    destruct (own_props (field (output_of params) "slack") !! k) as [v|] eqn:Hv.
    + rewrite lookup_copied, Hv; eauto.
      intros ->. repeat (apply elem_of_cons in Hk as [Hk|Hk]; [discriminate|]).
      by apply elem_of_nil in Hk.
    + rewrite lookup_not_copied by done.
      apply base_output_lookup; intros ->;
        repeat (apply elem_of_cons in Hk as [Hk|Hk]; [discriminate|]);
        by apply elem_of_nil in Hk.
  - intros _ _. split; [|split].
    + exists subs. split; [done|]. apply lookup_insert_eq.
    + rewrite lookup_insert_ne, set_present_lookup_ne by done.
      by apply base_output_lookup.
    + rewrite lookup_insert_ne, set_present_lookup_ne by done.
      by apply base_output_lookup.
  - intros _ _. split.
    + rewrite !set_present_lookup_ne by done. by apply base_output_lookup.
    + exists s. split; [done|]. split; [|congruence]. intros _. split.
      * rewrite set_present_lookup, set_present_lookup_ne by done.
        rewrite base_output_lookup by done. by destruct (present _).
      * rewrite !set_present_lookup_ne by done. by apply base_output_lookup.
  - intros _ _. split.
    + rewrite lookup_insert_ne, !set_present_lookup_ne by done.
      by apply base_output_lookup.
    + exists s. split; [done|]. split; [congruence|]. intros _.
      apply lookup_insert_eq.
Qed.

Lemma one_output_shape_witness :
  text_result !! "message" = None
  ∧ text_result !! "text" = Some (VStr "a b")
  ∧ text_result !! "attachments" = None.
Proof.
  pose proof (one_output_shape parse_json text_input
                (VStr "D024BE7RE") (VStr urlChatPost) text_result) as H.
  destruct H as (_ & _ & H).
  - split; [|split]; vm_compute; reflexivity.
  - vm_compute; reflexivity.
  - destruct H as (Hm & s & Hs & He & _); [reflexivity..|].
    injection Hs as <-. destruct He as (Ht & Ha); [reflexivity|].
    exact (conj Hm (conj Ht Ha)).
Defined.

(** ** Event and payload together *)




(** * Further properties of the action *)

(** ** Validation *)

Lemma get_nonnull v k : v ≠ VUndef → v ≠ VNull → get v k = Ok (field v k).
Proof.
  intros Hu Hn. unfold field. destruct v; try done; cbn.
  all: by destruct (String.eqb k "length").
Qed.

Lemma truthy_content_of params :
  truthy (content_of params)
    = truthy (field (output_of params) "slack")
      || truthy (field (output_of params) "generic")
      || truthy (field (output_of params) "text").
Proof.
  unfold content_of.
  destruct (truthy (field (output_of params) "slack")) eqn:Hs; [done|].
  by destruct (truthy (field (output_of params) "generic")) eqn:Hg.
Qed.

(** The checks of [validateParameters] in a row, on the parts of the
    input: each is an assertion on a part that the checks before it have
    made readable. *)
Lemma validate_stages JSON_parse params :
  params ≠ VUndef → params ≠ VNull →
  validateParameters JSON_parse params =
    (assert (conversation_of params) (Some "No conversation output.");;
     assert (output_of params) (Some "No conversation output message.");;
     assert (content_of params)
       (Some "No facebook/generic/text field in conversation.output.");;
     assert (raw_of params) (Some "No raw input data found.");;
     assert (slack_of params) (Some "No Slack input data found.");;
     assert (field (raw_of params) "conversation")
       (Some "No Conversation input data found.");;
     slackPayload ← js_and (payload_of params)
                      (js_JSON_parse JSON_parse (payload_of params));
     slackChannel ← channel_of (event_of params) slackPayload;
     assert slackChannel (Some "No Slack channel found in raw data.")).
Proof.
  intros Hu Hn. unfold validateParameters.
  rewrite !(get_nonnull params) by done.
  fold (conversation_of params) (raw_of params). rsimpl.
  destruct (truthy (conversation_of params)) eqn:Hc;
    [|by rewrite !(assert_falsy _ _ Hc)].
  rewrite !(assert_truthy _ _ Hc). rsimpl.
  rewrite (get_truthy _ _ Hc). rsimpl. fold (output_of params).
  destruct (truthy (output_of params)) eqn:Ho;
    [|by rewrite !(assert_falsy _ _ Ho)].
  rewrite !(assert_truthy _ _ Ho). rsimpl.
  rewrite !(output_field_Ok _ _ Hc Ho). rsimpl.
  assert (js_or (field (output_of params) "slack")
            (js_or (field (output_of params) "generic")
               (Ok (field (output_of params) "text"))) = Ok (content_of params))
    as ->.
  { unfold js_or, content_of.
    destruct (truthy (field (output_of params) "slack")); [done|].
    by destruct (truthy (field (output_of params) "generic")). }
  rsimpl.
  destruct (truthy (content_of params)) eqn:Hct;
    [|by rewrite !(assert_falsy _ _ Hct)].
  rewrite !(assert_truthy _ _ Hct). rsimpl.
  destruct (truthy (raw_of params)) eqn:Hr;
    [|by rewrite !(assert_falsy _ _ Hr)].
  rewrite !(assert_truthy _ _ Hr). rsimpl.
  rewrite !(get_truthy _ _ Hr). rsimpl. fold (slack_of params).
  destruct (truthy (slack_of params)) eqn:Hs;
    [|by rewrite !(assert_falsy _ _ Hs)].
  rewrite !(assert_truthy _ _ Hs). rsimpl.
  destruct (truthy (field (raw_of params) "conversation")) eqn:Hci;
    [|by rewrite !(assert_falsy _ _ Hci)].
  rewrite !(assert_truthy _ _ Hci). rsimpl.
  rewrite (slack_field_Ok _ _ Hr Hs). rsimpl.
  by rewrite (parsed_payload_eq _ _ Hr Hs).
Qed.

Lemma channel_of_total slackEvent slackPayload :
  ∃ channel, channel_of slackEvent slackPayload = Ok channel.
Proof.
  unfold channel_of, js_and.
  destruct (truthy slackEvent) eqn:He; [rewrite (get_truthy _ _ He); eauto|].
  destruct (truthy slackPayload) eqn:Hp; [|eauto].
  rewrite !(get_truthy _ _ Hp). rsimpl.
  destruct (truthy (field slackPayload "channel")) eqn:Hc; [|eauto].
  rewrite (get_truthy _ _ Hc). eauto.
Qed.

(** X1.  On a parameter object, [validateParameters] reports the first
    part that is missing, in the order conversation, its output, the
    content of the output, the raw input data, its [slack] part, its
    [conversation] part, the channel; each with its own message. *)
Theorem first_missing_part_is_reported JSON_parse params :
  params ≠ VUndef → params ≠ VNull →
  (truthy (conversation_of params) = false →
     validateParameters JSON_parse params
       = Err (AssertionError (Some "No conversation output.")))
  ∧ (truthy (conversation_of params) = true →
     truthy (output_of params) = false →
     validateParameters JSON_parse params
       = Err (AssertionError (Some "No conversation output message.")))
  ∧ (truthy (conversation_of params) = true →
     truthy (output_of params) = true →
     truthy (field (output_of params) "slack")
       || truthy (field (output_of params) "generic")
       || truthy (field (output_of params) "text") = false →
     validateParameters JSON_parse params
       = Err (AssertionError
           (Some "No facebook/generic/text field in conversation.output.")))
  ∧ (truthy (conversation_of params) = true →
     truthy (output_of params) = true →
     truthy (field (output_of params) "slack")
       || truthy (field (output_of params) "generic")
       || truthy (field (output_of params) "text") = true →
     (truthy (raw_of params) = false →
        validateParameters JSON_parse params
          = Err (AssertionError (Some "No raw input data found.")))
     ∧ (truthy (raw_of params) = true →
        truthy (slack_of params) = false →
        validateParameters JSON_parse params
          = Err (AssertionError (Some "No Slack input data found.")))
     ∧ (truthy (raw_of params) = true →
        truthy (slack_of params) = true →
        truthy (field (raw_of params) "conversation") = false →
        validateParameters JSON_parse params
          = Err (AssertionError (Some "No Conversation input data found.")))
     ∧ (truthy (raw_of params) = true →
        truthy (slack_of params) = true →
        truthy (field (raw_of params) "conversation") = true →
        ∀ parsed channel,
          js_and (payload_of params)
            (js_JSON_parse JSON_parse (payload_of params)) = Ok parsed →
          channel_of (event_of params) parsed = Ok channel →
          truthy channel = false →
          validateParameters JSON_parse params
            = Err (AssertionError (Some "No Slack channel found in raw data.")))).
Proof.
  intros Hu Hn. rewrite (validate_stages _ _ Hu Hn).
  split; [|split; [|split]].
  - intros Hc. by rewrite (assert_falsy _ _ Hc).
  - intros Hc Ho. by rewrite (assert_truthy _ _ Hc), (assert_falsy _ _ Ho).
  - intros Hc Ho Hct. rewrite <- truthy_content_of in Hct.
    by rewrite (assert_truthy _ _ Hc), (assert_truthy _ _ Ho),
      (assert_falsy _ _ Hct).
  - intros Hc Ho Hct. rewrite <- truthy_content_of in Hct.
    rewrite (assert_truthy _ _ Hc), (assert_truthy _ _ Ho),
      (assert_truthy _ _ Hct). rsimpl.
    split; [|split; [|split]].
    + intros Hr. by rewrite (assert_falsy _ _ Hr).
    + intros Hr Hs. by rewrite (assert_truthy _ _ Hr), (assert_falsy _ _ Hs).
    + intros Hr Hs Hci.
      by rewrite (assert_truthy _ _ Hr), (assert_truthy _ _ Hs),
        (assert_falsy _ _ Hci).
    + intros Hr Hs Hci parsed channel Hp Hch Hf.
      rewrite (assert_truthy _ _ Hr), (assert_truthy _ _ Hs),
        (assert_truthy _ _ Hci). rsimpl.
      rewrite Hp. rsimpl. rewrite Hch. rsimpl. by apply assert_falsy.
Qed.

Lemma first_missing_part_is_reported_witness :
  validateParameters parse_json no_channel_input
    = Err (AssertionError (Some "No Slack channel found in raw data.")).
Proof.
  destruct (first_missing_part_is_reported parse_json no_channel_input)
    as (_ & _ & _ & H); [discriminate..|].
  destruct H as (_ & _ & _ & H); [reflexivity..|].
  apply (H eq_refl eq_refl eq_refl VUndef VUndef); reflexivity.
Defined.

(** X2.  What [validateParameters] throws is of three kinds only: a
    [TypeError] when the parameters themselves are [undefined] or [null];
    an assertion error carrying one of its seven messages; or what parsing
    a payload that is there throws.  A missing part never surfaces as a
    [TypeError] of a property read. *)
Theorem validation_error_kinds JSON_parse params e :
  validateParameters JSON_parse params = Err e →
  ((params = VUndef ∨ params = VNull) ∧ e = TypeError)
  ∨ (∃ m, e = AssertionError (Some m) ∧ m ∈ validation_messages)
  ∨ (truthy (payload_of params) = true
     ∧ js_JSON_parse JSON_parse (payload_of params) = Err e).
Proof.
  intros H.
  assert (Hcases : params = VUndef ∨ params = VNull
                   ∨ (params ≠ VUndef ∧ params ≠ VNull)).
  { destruct params; auto; right; right; by split. }
  destruct Hcases as [->|[->|[Hu Hn]]].
  { left. split; [by left|]. by injection H as <-. }
  { left. split; [by right|]. by injection H as <-. }
  right. rewrite (validate_stages _ _ Hu Hn) in H.
  assert (Hassert : ∀ v m (k : result unit),
    m ∈ validation_messages →
    (assert v (Some m);; k) = Err e →
    (∃ m, e = AssertionError (Some m) ∧ m ∈ validation_messages)
    ∨ truthy v = true ∧ k = Err e).
  { intros v m k Hm Hk. unfold assert in Hk. destruct (truthy v).
    - right. by split.
    - left. injection Hk as <-. eauto. }
  unfold validation_messages in Hassert.
  apply Hassert in H as [?|[_ H]]; [by left| |repeat constructor].
  apply Hassert in H as [?|[_ H]]; [by left| |repeat constructor].
  apply Hassert in H as [?|[_ H]]; [by left| |repeat constructor].
  apply Hassert in H as [?|[_ H]]; [by left| |repeat constructor].
  apply Hassert in H as [?|[_ H]]; [by left| |repeat constructor].
  apply Hassert in H as [?|[_ H]]; [by left| |repeat constructor].
  destruct (js_and (payload_of params) _) as [parsed|e'] eqn:Hp.
  - rsimpl in H.
    destruct (channel_of_total (event_of params) parsed) as (channel & Hch).
    rewrite Hch in H. rsimpl in H. left.
    unfold assert in H. destruct (truthy channel); [done|].
    injection H as <-. eexists. split; [done|]. repeat constructor.
  - rsimpl in H. injection H as ->. right.
    unfold js_and in Hp. destruct (truthy (payload_of params)); [done|done].
Qed.

Lemma validation_error_kinds_witness :
  ((unparseable_input = VUndef ∨ unparseable_input = VNull) ∧ SyntaxError = TypeError)
  ∨ (∃ m, SyntaxError = AssertionError (Some m) ∧ m ∈ validation_messages)
  ∨ (truthy (payload_of unparseable_input) = true
     ∧ js_JSON_parse parse_json (payload_of unparseable_input) = Err SyntaxError).
Proof.
  apply (validation_error_kinds parse_json unparseable_input SyntaxError).
  vm_compute; reflexivity.
Defined.

(** X3.  Validation passes exactly when the six required parts are there
    and [getSlackChannel] returns a channel that is there: the channel
    that validation checks is the one the output is built with. *)
Theorem validation_passes_iff JSON_parse params :
  validateParameters JSON_parse params = Ok () ↔
  truthy (conversation_of params) = true
  ∧ truthy (output_of params) = true
  ∧ truthy (field (output_of params) "slack")
      || truthy (field (output_of params) "generic")
      || truthy (field (output_of params) "text") = true
  ∧ truthy (raw_of params) = true
  ∧ truthy (slack_of params) = true
  ∧ truthy (field (raw_of params) "conversation") = true
  ∧ ∃ channel, getSlackChannel JSON_parse params = Ok channel
               ∧ truthy channel = true.
Proof.
  split.
  - intros H. pose proof (validate_presence _ _ H) as (Hc & Ho & Hct & Hr & Hs & Hci).
    apply validate_Ok in H as (parsed & channel & Hvalid).
    repeat (split; [done|]). exists channel.
    split; [by apply (getSlackChannel_valid _ _ _ _ Hvalid)|apply Hvalid].
  - intros (Hc & Ho & Hct & Hr & Hs & Hci & channel & Hch & Ht).
    rewrite validate_checked by done.
    unfold getSlackChannel in Hch.
    rewrite (slack_field_Ok _ _ Hr Hs), (parsed_payload_eq _ _ Hr Hs) in Hch.
    rsimpl in Hch. fold (event_of params) in Hch.
    destruct (js_and _ _) as [parsed|e]; [rsimpl in Hch; rsimpl|done].
    rewrite Hch. rsimpl. by apply assert_truthy.
Qed.

(** X4.  When the inbound data has an event, the channel is looked for in
    the event only: an event without a channel fails validation whatever
    the payload next to it holds, its [channel.id] included. *)
Theorem event_channel_takes_precedence JSON_parse params parsed :
  truthy (conversation_of params) = true →
  truthy (output_of params) = true →
  truthy (field (output_of params) "slack")
    || truthy (field (output_of params) "generic")
    || truthy (field (output_of params) "text") = true →
  truthy (raw_of params) = true →
  truthy (slack_of params) = true →
  truthy (field (raw_of params) "conversation") = true →
  truthy (event_of params) = true →
  truthy (field (event_of params) "channel") = false →
  js_and (payload_of params) (js_JSON_parse JSON_parse (payload_of params))
    = Ok parsed →
  validateParameters JSON_parse params
    = Err (AssertionError (Some "No Slack channel found in raw data.")).
Proof.
  intros Hc Ho Hct Hr Hs Hci He Hch Hp.
  rewrite validate_checked by done. rewrite Hp. rsimpl.
  unfold channel_of. rewrite He, (get_truthy _ _ He). rsimpl.
  by apply assert_falsy.
Qed.

Lemma event_channel_takes_precedence_witness :
  truthy (field (field (obj [("channel", obj [("id", VStr "C1")]);
      ("original_message", obj [("ts", VStr "123"); ("text", VStr "orig")])])
      "channel") "id") = true
  ∧ validateParameters parse_json event_no_channel_input
      = Err (AssertionError (Some "No Slack channel found in raw data.")).
Proof.
  split; [reflexivity|].
  apply (event_channel_takes_precedence parse_json event_no_channel_input
           (obj [("channel", obj [("id", VStr "C1")]);
                 ("original_message",
                  obj [("ts", VStr "123"); ("text", VStr "orig")])]));
    vm_compute; reflexivity.
Defined.

(** X5.  On a validated input, resolving the endpoint throws in one case
    only: there is an event, there is a payload, and the payload parses to
    [null] (or [undefined]); it then throws a [TypeError]. *)
Theorem endpoint_resolution_failure JSON_parse params :
  validateParameters JSON_parse params = Ok () →
  ∀ e, getSlackPostUrl JSON_parse params = Err e ↔
       e = TypeError
       ∧ truthy (event_of params) = true
       ∧ truthy (payload_of params) = true
       ∧ (js_JSON_parse JSON_parse (payload_of params) = Ok VNull
          ∨ js_JSON_parse JSON_parse (payload_of params) = Ok VUndef).
Proof.
  intros (parsed & channel & Hvalid)%validate_Ok e.
  rewrite (getSlackPostUrl_valid _ _ _ _ Hvalid).
  pose proof (parsed_truthy _ _ _ _ Hvalid) as Hpt.
  destruct Hvalid as [_ _ _ _ _ _ [[_ Hp]|[Hp Hparse]] _ _]; rewrite Hp.
  - split; [discriminate|]. intros (_ & _ & ? & _). discriminate.
  - rewrite Hparse. split.
    + destruct parsed; try discriminate; intros [= <-].
      all: destruct (truthy (event_of params)); [|by specialize (Hpt eq_refl)].
      all: eauto.
    + intros (-> & _ & _ & [[= ->]|[= ->]]); reflexivity.
Qed.

Lemma endpoint_resolution_failure_witness :
  getSlackPostUrl parse_json null_payload_input = Err TypeError.
Proof.
  apply (endpoint_resolution_failure parse_json null_payload_input).
  - vm_compute; reflexivity.
  - repeat split. left. vm_compute; reflexivity.
Defined.

(** X6.  On the plain-text path the text of the conversation output has to
    be a list: with anything else (a string, say) the call of [join] throws
    and the promise is rejected with a [TypeError], after validation has
    passed. *)
Theorem text_must_be_a_list JSON_parse params channel url :
  valid_input JSON_parse params channel url →
  truthy (field (output_of params) "slack") = false →
  truthy (field (output_of params) "generic") = false →
  (∀ l, field (output_of params) "text" ≠ VArr l) →
  main JSON_parse params = Return (Rejected TypeError).
Proof.
  intros Hin Hs Hg Hl.
  pose proof Hin as (parsed & Hvalid & _)%valid_input_view.
  rewrite (main_valid _ _ _ _ Hin).
  assert (join (field (output_of params) "text") " " = Err TypeError) as Hj.
  { destruct (field (output_of params) "text"); try done. by destruct (Hl l). }
  destruct (truthy (event_of params)) eqn:He.
  - by rewrite (insertConversationOutput_text_event _ _ _ _ Hvalid), Hj.
  - by rewrite (insertConversationOutput_text_payload _ _ _ _ Hvalid), Hj.
Qed.

Lemma text_must_be_a_list_witness :
  main parse_json string_text_input = Return (Rejected TypeError).
Proof.
  apply (text_must_be_a_list parse_json string_text_input
           (VStr "D024BE7RE") (VStr urlChatPost)).
  - split; [|split]; vm_compute; reflexivity.
  - reflexivity.
  - reflexivity.
  - discriminate.
Defined.

(** X7.  An override that is there but has no keys (the empty object, or a
    number or [true]) still takes the override path: the result is the bare
    base output, and the generic elements and the text of the conversation
    output are dropped. *)
Theorem empty_override_drops_body JSON_parse params channel url :
  valid_input JSON_parse params channel url →
  truthy (field (output_of params) "slack") = true →
  own_props (field (output_of params) "slack") = ∅ →
  main JSON_parse params
    = Return (Fulfilled (VObj (base_output channel url params)))
  ∧ base_output channel url params !! "text" = None
  ∧ base_output channel url params !! "message" = None
  ∧ base_output channel url params !! "attachments" = None.
Proof.
  intros Hin Hs Hempty.
  pose proof Hin as (parsed & Hvalid & _)%valid_input_view.
  rewrite (main_valid _ _ _ _ Hin).
  rewrite (insertConversationOutput_override _ _ _ _ Hvalid) by done.
  rewrite Hempty, delete_empty, (left_id_L ∅ (∪)).
  repeat split; by apply base_output_lookup.
Qed.

Lemma empty_override_drops_body_witness :
  main parse_json empty_override_input
    = Return (Fulfilled (VObj (base_output (VStr "D024BE7RE") (VStr urlChatPost)
                                 empty_override_input))).
Proof.
  apply (empty_override_drops_body parse_json empty_override_input
           (VStr "D024BE7RE") (VStr urlChatPost)).
  - split; [|split]; vm_compute; reflexivity.
  - reflexivity.
  - reflexivity.
Defined.

(** X8.  Traceability: unless the override defines these keys, every
    result carries the raw input data of the call under [raw_input_data]
    and the conversation of the call under [raw_output_data.conversation],
    both unchanged. *)
Theorem raw_data_passes_through JSON_parse params channel url
    (out : gmap string value) :
  valid_input JSON_parse params channel url →
  main JSON_parse params = Return (Fulfilled (VObj out)) →
  (truthy (field (output_of params) "slack") = false
     ∨ own_props (field (output_of params) "slack") !! "raw_input_data" = None →
   out !! "raw_input_data" = Some (field params "raw_input_data"))
  ∧ (truthy (field (output_of params) "slack") = false
       ∨ own_props (field (output_of params) "slack") !! "raw_output_data" = None →
     out !! "raw_output_data"
       = Some (VObj {[ "conversation" := field params "conversation" ]})).
Proof.
  intros Hin Hmain.
  pose proof Hin as (parsed & Hvalid & _)%valid_input_view.
  apply (main_fulfilled _ _ _ _ _ Hin) in Hmain.
  split; intros Hover.
  - rewrite (result_frame _ _ _ _ _ _ "raw_input_data" Hvalid Hmain);
      [done| |done].
    rewrite !not_elem_of_cons. repeat split; try done. apply not_elem_of_nil.
  - rewrite (result_frame _ _ _ _ _ _ "raw_output_data" Hvalid Hmain);
      [done| |done].
    rewrite !not_elem_of_cons. repeat split; try done. apply not_elem_of_nil.
Qed.

Lemma raw_data_passes_through_witness :
  text_result !! "raw_input_data" = Some event_data
  ∧ text_result !! "raw_output_data"
      = Some (VObj {[ "conversation" := obj [("output", obj text_ab)] ]}).
Proof.
  destruct (raw_data_passes_through parse_json text_input
              (VStr "D024BE7RE") (VStr urlChatPost) text_result) as (H1 & H2).
  - split; [|split]; vm_compute; reflexivity.
  - vm_compute; reflexivity.
  - split; [apply H1|apply H2]; left; reflexivity.
Defined.

(** ** The fields of a result *)

Lemma base_output_is_Some channel url params k :
  is_Some (base_output channel url params !! k) ↔
  k ∈ ["channel"; "url"; "raw_input_data"; "raw_output_data"].
Proof.
  unfold base_output. rewrite !lookup_insert_is_Some', lookup_singleton_is_Some.
  rewrite !elem_of_cons, elem_of_nil. intuition (subst; auto; congruence).
Qed.

Lemma set_present_is_Some k v (m : gmap string value) k' :
  is_Some (set_present k v m !! k') → k' = k ∨ is_Some (m !! k').
Proof.
  unfold set_present. destruct (present v); [|by right].
  rewrite lookup_insert_is_Some'. intuition (subst; auto; congruence).
Qed.

Lemma set_present_keeps k v (m : gmap string value) k' :
  is_Some (m !! k') → is_Some (set_present k v m !! k').
Proof.
  unfold set_present. destruct (present v); [|done].
  rewrite lookup_insert_is_Some'. by right.
Qed.

Lemma insertConversationOutput_object JSON_parse params parsed channel output v :
  valid_view JSON_parse params parsed channel →
  insertConversationOutput JSON_parse params output = Ok v →
  ∃ out, v = VObj out.
Proof.
  intros Hvalid Hout.
  destruct (truthy (field (output_of params) "slack")) eqn:Hs.
  { rewrite (insertConversationOutput_override _ _ _ _ Hvalid) in Hout by done.
    injection Hout as <-. eauto. }
  destruct (truthy (field (output_of params) "generic")) eqn:Hg.
  { rewrite (insertConversationOutput_generic _ _ _ _ Hvalid) in Hout by done.
    apply bind_Ok in Hout as (subs & _ & [= <-]). eauto. }
  destruct (truthy (event_of params)) eqn:He.
  - rewrite (insertConversationOutput_text_event _ _ _ _ Hvalid) in Hout by done.
    apply bind_Ok in Hout as (s & _ & [= <-]). eauto.
  - rewrite (insertConversationOutput_text_payload _ _ _ _ Hvalid) in Hout by done.
    apply bind_Ok in Hout as (s & _ & [= <-]). eauto.
Qed.

(** X9.  What a result may hold.  Without an override its fields are among
    [channel], [url], [raw_input_data], [raw_output_data], [ts], [message],
    [text] and [attachments]; with an override they are the keys of the
    override other than [__proto__] and the four fields of the base output,
    nothing else. *)
Theorem result_fields_bounded JSON_parse params channel url
    (out : gmap string value) :
  valid_input JSON_parse params channel url →
  main JSON_parse params = Return (Fulfilled (VObj out)) →
  (truthy (field (output_of params) "slack") = false →
     ∀ k, is_Some (out !! k) →
          k ∈ ["channel"; "url"; "raw_input_data"; "raw_output_data";
               "ts"; "message"; "text"; "attachments"])
  ∧ (truthy (field (output_of params) "slack") = true →
     ∀ k, is_Some (out !! k) ↔
          (k ≠ "__proto__"
           ∧ is_Some (own_props (field (output_of params) "slack") !! k))
          ∨ k ∈ ["channel"; "url"; "raw_input_data"; "raw_output_data"]).
Proof.
  intros Hin Hmain.
  pose proof Hin as (parsed & Hvalid & _)%valid_input_view.
  apply (main_fulfilled _ _ _ _ _ Hin) in Hmain.
  assert (Hbase : ∀ k, is_Some (base_output channel url params !! k) →
    k ∈ ["channel"; "url"; "raw_input_data"; "raw_output_data";
         "ts"; "message"; "text"; "attachments"]).
  { intros k Hk%base_output_is_Some. rewrite !elem_of_cons in *. intuition (subst; auto; congruence). }
  destruct (insertConversationOutput_cases _ _ _ _ _ _ Hvalid Hmain)
    as [(Hs & ->)|[(Hs & _ & subs & _ & ->)|[(Hs & _ & _ & s & _ & ->)
        |(Hs & _ & _ & s & _ & ->)]]].
  - split; [congruence|]. intros _ k.
    rewrite lookup_union_is_Some, base_output_is_Some, lookup_delete_is_Some.
    intuition congruence.
  - split; [|congruence]. intros _ k.
    rewrite lookup_insert_is_Some'.
    intros [<-|[->|Hk]%set_present_is_Some]; [| |by apply Hbase];
      rewrite !elem_of_cons; intuition (subst; auto; congruence).
  - split; [|congruence]. intros _ k.
    intros [->|[->|Hk]%set_present_is_Some]%set_present_is_Some;
      [| |by apply Hbase]; rewrite !elem_of_cons; intuition (subst; auto; congruence).
  - split; [|congruence]. intros _ k.
    rewrite lookup_insert_is_Some'.
    intros [<-|[->|[->|Hk]%set_present_is_Some]%set_present_is_Some];
      [| | |by apply Hbase]; rewrite !elem_of_cons; intuition (subst; auto; congruence).
Qed.

Lemma result_fields_bounded_witness :
  is_Some (text_result !! "ts")
  ∧ "ts" ∈ ["channel"; "url"; "raw_input_data"; "raw_output_data";
            "ts"; "message"; "text"; "attachments"].
Proof.
  assert (Hts : is_Some (text_result !! "ts")) by (by exists (VStr "1.5")).
  split; [exact Hts|].
  refine (proj1 (result_fields_bounded parse_json text_input
            (VStr "D024BE7RE") (VStr urlChatPost) text_result _ _) _ "ts" Hts).
  - split; [|split]; vm_compute; reflexivity.
  - vm_compute; reflexivity.
  - reflexivity.
Defined.

(** X10.  A promise fulfilled by [main] tells that validation has passed,
    and its value is an object that has the four fields of the base output:
    no path removes a field. *)
Theorem fulfilled_result_shape JSON_parse params v :
  main JSON_parse params = Return (Fulfilled v) →
  validateParameters JSON_parse params = Ok ()
  ∧ ∃ out, v = VObj out
      ∧ ∀ k, k ∈ ["channel"; "url"; "raw_input_data"; "raw_output_data"] →
             is_Some (out !! k).
Proof.
  rewrite main_eq. intros Hmain.
  destruct (main_body JSON_parse params) as [v'|e] eqn:Hb; [|discriminate].
  injection Hmain as ->.
  destruct (validateParameters JSON_parse params) as [[]|e] eqn:Hv;
    [|by rewrite (main_body_invalid _ _ _ Hv) in Hb].
  split; [done|].
  pose proof Hv as (parsed & channel & Hvalid)%validate_Ok.
  rewrite (main_body_valid _ _ _ _ Hvalid) in Hb.
  apply bind_Ok in Hb as (url & _ & Hout).
  destruct (insertConversationOutput_object _ _ _ _ _ _ Hvalid Hout) as (out & ->).
  exists out. split; [done|]. intros k Hk%(base_output_is_Some channel url params).
  destruct (insertConversationOutput_cases _ _ _ _ _ _ Hvalid Hout)
    as [(Hs & ->)|[(Hs & _ & subs & _ & ->)|[(Hs & _ & _ & s & _ & ->)
        |(Hs & _ & _ & s & _ & ->)]]].
  - rewrite lookup_union_is_Some. by right.
  - rewrite lookup_insert_is_Some'. right. by apply set_present_keeps.
  - by do 2 apply set_present_keeps.
  - rewrite lookup_insert_is_Some'. right. by do 2 apply set_present_keeps.
Qed.

Lemma fulfilled_result_shape_witness :
  validateParameters parse_json text_input = Ok ()
  ∧ ∃ out, VObj text_result = VObj out
      ∧ ∀ k, k ∈ ["channel"; "url"; "raw_input_data"; "raw_output_data"] →
             is_Some (out !! k).
Proof.
  apply (fulfilled_result_shape parse_json text_input (VObj text_result)).
  vm_compute; reflexivity.
Defined.

(** ** The generic elements and the options *)

Lemma mapM_length_result {A B} (f : A → result B) l : ∀ k,
  mapM f l = Ok k → length k = length l.
Proof.
  induction l as [|x l IH]; intros k.
  - by intros [= <-].
  - rewrite mapM_cons_result. intros (y & _ & H)%bind_Ok.
    apply bind_Ok in H as (k' & Hk' & [= <-]). cbn. by rewrite (IH k').
Qed.

Lemma mapM_lookup_result {A B} (f : A → result B) l : ∀ k i x y,
  mapM f l = Ok k → l !! i = Some x → k !! i = Some y → f x = Ok y.
Proof.
  induction l as [|x' l IH]; intros k i x y; [done|].
  rewrite mapM_cons_result. intros (y' & Hy' & H)%bind_Ok.
  apply bind_Ok in H as (k' & Hk' & [= <-]).
  destruct i as [|i]; cbn.
  - by intros [= <-] [= <-].
  - by apply IH.
Qed.

Lemma entries_length (subs : list (option value)) :
  (length (entries subs) ≤ length subs)%nat.
Proof.
  unfold entries. induction subs as [|[m|] subs IH]; cbn; lia.
Qed.

(** X11.  On the generic path the result always has a [message] list, with
    at most one entry per element; an empty list of elements gives an empty
    [message] list (and still no text). *)
Theorem message_list_bounded JSON_parse params channel url
    (out : gmap string value) :
  valid_input JSON_parse params channel url →
  truthy (field (output_of params) "slack") = false →
  truthy (field (output_of params) "generic") = true →
  main JSON_parse params = Return (Fulfilled (VObj out)) →
  ∃ messages, out !! "message" = Some (VArr messages)
    ∧ (length messages
         ≤ length (generic_elements (field (output_of params) "generic")))%nat
    ∧ (field (output_of params) "generic" = VArr [] → messages = []).
Proof.
  intros Hin Hs Hg Hmain.
  pose proof Hin as (parsed & Hvalid & _)%valid_input_view.
  apply (main_fulfilled _ _ _ _ _ Hin) in Hmain.
  rewrite (insertConversationOutput_generic _ _ _ _ Hvalid) in Hmain by done.
  apply bind_Ok in Hmain as (subs & Hsubs & [= <-]).
  exists (entries subs). split; [apply lookup_insert_eq|].
  pose proof (mapM_length_result _ _ _ Hsubs) as Hlen.
  pose proof (entries_length subs) as Hle. split; [lia|].
  intros Hnil. rewrite Hnil in Hlen. by destruct subs.
Qed.

Lemma message_list_bounded_witness :
  ∃ messages,
    (<["message" := VArr []]> (<["ts" := VStr "1.5"]>
       (base_output (VStr "D024BE7RE") (VStr urlChatPost)
          (with_output event_data [("generic", VArr [])]))) : gmap string value)
      !! "message" = Some (VArr messages)
    ∧ (length messages ≤ 0)%nat
    ∧ (VArr [] = VArr [] → messages = []).
Proof.
  apply (message_list_bounded parse_json
           (with_output event_data [("generic", VArr [])])
           (VStr "D024BE7RE") (VStr urlChatPost)).
  - split; [|split]; vm_compute; reflexivity.
  - reflexivity.
  - reflexivity.
  - vm_compute; reflexivity.
Defined.

(** X12.  Normalising an option value twice is normalising it once: what
    [getNormalizedOptionsValue] returns it returns unchanged when given it
    again. *)
Theorem normalization_is_idempotent (v r : value) :
  getNormalizedOptionsValue v = Ok r →
  getNormalizedOptionsValue r = Ok r.
Proof.
  rewrite !getNormalizedOptionsValue_spec.
  by intros (s & -> & _)%spec_option_value_Ok.
Qed.

Lemma normalization_is_idempotent_witness :
  getNormalizedOptionsValue (VStr "n") = Ok (VStr "n").
Proof.
  apply (normalization_is_idempotent structured_value (VStr "n")).
  vm_compute; reflexivity.
Defined.

(** X13.  The buttons of an option element.  An element whose [options]
    is not a list makes the generator throw a [TypeError].  Otherwise there
    is one button per option, in the order of the options, named and
    labelled with the label of its option; one option whose value does not
    normalise makes the whole element fail. *)
Theorem option_buttons_follow_options (element : value) :
  (element ≠ VUndef → element ≠ VNull →
   (∀ l, field element "options" ≠ VArr l) →
   generateSlackOptionsData element = Err TypeError)
  ∧ (∀ out, generateSlackOptionsData element = Ok out →
     ∃ options buttons,
       field element "options" = VArr options
       ∧ field (field (field out "attachments") "0") "actions" = VArr buttons
       ∧ length buttons = length options
       ∧ ∀ i optionObj button,
           options !! i = Some optionObj → buttons !! i = Some button →
           field button "name" = field optionObj "label"
           ∧ field button "text" = field optionObj "label"
           ∧ field button "type" = VStr "button"
           ∧ getNormalizedOptionsValue (field optionObj "value")
               = Ok (field button "value"))
  ∧ (∀ options optionObj e,
       field element "options" = VArr options →
       optionObj ∈ options →
       optionObj ≠ VUndef → optionObj ≠ VNull →
       getNormalizedOptionsValue (field optionObj "value") = Err e →
       ∃ e', generateSlackOptionsData element = Err e').
Proof.
  split; [|split].
  - intros Hu Hn Hl. rewrite generateSlackOptionsData_spec.
    rewrite (get_nonnull _ _ Hu Hn). rsimpl.
    destruct (field element "options"); try done. by destruct (Hl l).
  - intros out. rewrite generateSlackOptionsData_spec.
    intros (options & Ho & H)%bind_Ok.
    apply bind_Ok in H as (buttons & Hb & [= <-]).
    apply get_Ok in Ho as ->.
    destruct (field element "options") as [| |b|n|s|options|o] eqn:Hopt;
      try discriminate.
    exists options, buttons. cbn in Hb.
    split; [done|]. split; [done|].
    split; [by apply (mapM_length_result _ _ _ Hb)|].
    intros i optionObj button Hi Hbi.
    pose proof (mapM_lookup_result _ _ _ _ _ _ Hb Hi Hbi) as Hspec.
    unfold spec_button in Hspec.
    apply bind_Ok in Hspec as (label & Hl & H).
    apply bind_Ok in H as (v & Hv & H).
    apply bind_Ok in H as (nv & Hnv & [= <-]).
    apply get_Ok in Hl as ->. apply get_Ok in Hv as ->.
    rewrite getNormalizedOptionsValue_spec, Hnv. done.
  - intros options optionObj e Hopt Hin Hu Hn Hbad.
    rewrite generateSlackOptionsData_spec.
    destruct (get element "options") as [o|e'] eqn:Hget; [rsimpl|eauto].
    apply get_Ok in Hget as ->. rewrite Hopt. cbn [array_map].
    destruct (mapM spec_button options) as [buttons|e'] eqn:Hb; [|eauto].
    exfalso. apply list_elem_of_lookup in Hin as (i & Hi).
    pose proof (mapM_length_result _ _ _ Hb) as Hlen.
    destruct (lookup_lt_is_Some_2 buttons i) as (button & Hbi).
    { rewrite Hlen. by eapply lookup_lt_Some. }
    pose proof (mapM_lookup_result _ _ _ _ _ _ Hb Hi Hbi) as Hspec.
    unfold spec_button in Hspec. rewrite !(get_nonnull _ _ Hu Hn) in Hspec.
    rsimpl in Hspec. rewrite <- getNormalizedOptionsValue_spec, Hbad in Hspec.
    discriminate.
Qed.





(** ** The payload and its reader *)

Lemma slack_field_inv params k x :
  slack_field params k = Ok x → x = field (slack_of params) k.
Proof.
  unfold slack_field. intros (raw & Hr & H)%bind_Ok.
  apply bind_Ok in H as (slack & Hs & H).
  apply get_Ok in Hr as ->. apply get_Ok in Hs as ->. by apply get_Ok in H.
Qed.

Lemma parsed_payload_no_payload JSON_parse params :
  truthy (payload_of params) = false →
  parsed_payload JSON_parse params = slack_field params "payload".
Proof.
  intros Hp. unfold parsed_payload.
  destruct (slack_field params "payload") as [x|e] eqn:Hx; [rsimpl|done].
  apply slack_field_inv in Hx as ->. by apply js_and_falsy.
Qed.

Lemma getSlackPostUrl_no_payload JSON_parse params :
  truthy (payload_of params) = false →
  getSlackPostUrl JSON_parse params
    = (slack_field params "payload";; Ok (VStr urlChatPost)).
Proof.
  intros Hp. unfold getSlackPostUrl.
  destruct (slack_field params "payload") as [x|e] eqn:Hx; [rsimpl|done].
  apply slack_field_inv in Hx as ->. fold (payload_of params). by rewrite Hp.
Qed.

(** X15.  Without a payload field the action never parses anything: its
    outcome is the same whatever [JSON.parse] would do, and the endpoint,
    when the call gets that far, is the post-new-message one. *)
Theorem no_payload_no_parsing JSON_parse JSON_parse' params :
  truthy (payload_of params) = false →
  main JSON_parse params = main JSON_parse' params
  ∧ ∀ url, getSlackPostUrl JSON_parse params = Ok url → url = VStr urlChatPost.
Proof.
  intros Hp. split.
  - assert (main_body JSON_parse params = main_body JSON_parse' params) as Hb.
    { unfold main_body, validateParameters, getSlackChannel,
        insertConversationOutput, getOriginalMessageTimestamp, getOutputText.
      rewrite !(parsed_payload_no_payload JSON_parse),
        !(parsed_payload_no_payload JSON_parse'),
        (getSlackPostUrl_no_payload JSON_parse),
        (getSlackPostUrl_no_payload JSON_parse') by done.
      reflexivity. }
    unfold main. by rewrite Hb.
  - intros url. rewrite getSlackPostUrl_no_payload by done.
    by intros (? & _ & [= <-])%bind_Ok.
Qed.

Lemma no_payload_no_parsing_witness :
  main parse_json text_input = main (λ _, None) text_input.
Proof.
  apply (no_payload_no_parsing parse_json (λ _, None) text_input).
  reflexivity.
Defined.

(** X16.  A payload without an [original_message] on the plain-text path:
    the result has neither [text] nor [ts], and the joined text of the
    conversation output is delivered in [attachments] only. *)
Theorem payload_without_original_message JSON_parse params channel url parsed s :
  valid_input JSON_parse params channel url →
  truthy (field (output_of params) "slack") = false →
  truthy (field (output_of params) "generic") = false →
  truthy (event_of params) = false →
  js_JSON_parse JSON_parse (payload_of params) = Ok parsed →
  truthy (field parsed "original_message") = false →
  join (field (output_of params) "text") " " = Ok s →
  ∃ out, main JSON_parse params = Return (Fulfilled (VObj out))
    ∧ out !! "text" = None
    ∧ out !! "ts" = None
    ∧ out !! "attachments" = Some (VArr [VObj {[ "text" := VStr s ]}]).
Proof.
  intros Hin Hs Hg He Hparse Hom Hj.
  pose proof Hin as (parsed' & Hvalid & _)%valid_input_view.
  pose proof (parsed_unique _ _ _ _ _ Hvalid
                (payload_truthy _ _ _ _ Hvalid He) Hparse) as ->.
  destruct (main_plain_text _ _ _ _ _ _ Hin Hvalid Hs Hg Hj)
    as (out & Hmain & _ & _ & Hts & _ & Hpayload).
  destruct (Hpayload He) as (Htext & Hatt).
  exists out. split; [done|].
  unfold spec_timestamp in Hts. rewrite He in Hts.
  rewrite (present_falsy _ (field_falsy_ts _ Hom)) in Hts.
  rewrite (field_text_falsy _ Hom) in Htext. done.
Qed.

Lemma payload_without_original_message_witness :
  ∃ out, main parse_json bare_payload_input = Return (Fulfilled (VObj out))
    ∧ out !! "text" = None
    ∧ out !! "ts" = None
    ∧ out !! "attachments" = Some (VArr [VObj {[ "text" := VStr "a b" ]}]).
Proof.
  apply (payload_without_original_message parse_json bare_payload_input
           (VStr "C1") (VStr urlChatUpdate)
           (obj [("channel", obj [("id", VStr "C1")])]) "a b").
  - split; [|split]; vm_compute; reflexivity.
  - reflexivity.
  - reflexivity.
  - reflexivity.
  - vm_compute; reflexivity.
  - reflexivity.
  - vm_compute; reflexivity.
Defined.
